(** * medinexus-connect: the medicine search form, the store page badges
      and the proximity search core

    The development follows the TypeScript sources:

    - [Js]: the JavaScript values the pages manipulate (numbers with NaN and
      the infinities, loosely typed values, truthiness, [||]).
    - [Zod]: the part of the zod (v3) validation library that
      [searchSchema] is built from: string and number schemas with their
      checks, object schemas, issues and their default messages.
    - [SearchMedicine]: the search page (src/unnamed/part_000):
      [searchSchema], [handleChange], [validateForm], [handleSearch].
    - [StoreDetails]: the expiry badges of src/src/pages/StoreDetails.tsx.
    - [SearchCore]: the search service behind [GET /search]; its code is not
      part of the front-end sources, so it is modelled from the
      specification (sections 3 and 4). *)

From Stdlib Require Import Ascii String QArith Qround Qabs DecimalString Reals Lra Sorted.
From Stdlib Require Lqa.
From stdpp Require Import gmap strings list.

Open Scope string_scope.

(** ** JavaScript values *)

Module Js.

(** A JavaScript number.  Every finite double is a rational, and the
    relational operators on finite doubles agree with the order of the
    rationals they denote, so finite numbers are carried as [Q]; the two
    zeros are both [Finite 0] (they compare equal and are both falsy). *)
Inductive number : Type :=
| NaN
| NegInfinity
| PosInfinity
| Finite (q : Q).

(** [a < b] of JavaScript: false as soon as one side is NaN. *)
Definition lt (a b : number) : bool :=
  match a, b with
  | NaN, _ | _, NaN => false
  | _, NegInfinity => false
  | NegInfinity, _ => true
  | PosInfinity, _ => false
  | Finite _, PosInfinity => true
  | Finite x, Finite y => match (x ?= y)%Q with Lt => true | _ => false end
  end.

(** [a <= b] of JavaScript. *)
Definition le (a b : number) : bool :=
  match a, b with
  | NaN, _ | _, NaN => false
  | NegInfinity, _ => true
  | _, PosInfinity => true
  | _, NegInfinity => false
  | PosInfinity, _ => false
  | Finite x, Finite y => match (x ?= y)%Q with Gt => false | _ => true end
  end.

Definition gt (a b : number) : bool := lt b a.
Definition ge (a b : number) : bool := le b a.

Definition isNaN (a : number) : bool :=
  match a with NaN => true | _ => false end.

(** The mathematical order on numbers, used to state the properties:
    NaN is related to nothing, the infinities are the two ends. *)
Definition Le (a b : number) : Prop :=
  match a, b with
  | NaN, _ | _, NaN => False
  | NegInfinity, _ => True
  | _, PosInfinity => True
  | _, NegInfinity => False
  | PosInfinity, _ => False
  | Finite x, Finite y => (x <= y)%Q
  end.

Definition Lt (a b : number) : Prop :=
  match a, b with
  | NaN, _ | _, NaN => False
  | _, NegInfinity => False
  | NegInfinity, _ => True
  | PosInfinity, _ => False
  | Finite _, PosInfinity => True
  | Finite x, Finite y => (x < y)%Q
  end.

Definition of_Z (z : Z) : number := Finite (inject_Z z).

#[global] Arguments Le : simpl never.
#[global] Arguments Lt : simpl never.

(** Loosely typed values: what a property of a plain object can hold. *)
Inductive value : Type :=
| JsUndefined
| JsNull
| JsBoolean (b : bool)
| JsNumber (n : number)
| JsString (s : string)
| JsObject.

(** Truthiness of a number: zero and NaN are falsy. *)
Definition number_truthy (n : number) : bool :=
  match n with
  | NaN => false
  | Finite q => negb (Qeq_bool q 0)
  | _ => true
  end.

(** [n || 0]. *)
Definition or_zero (n : number) : number :=
  if number_truthy n then n else Finite 0.

(** Truthiness of a string: only the empty string is falsy. *)
Definition string_truthy (s : string) : bool :=
  match s with "" => false | _ => true end.

(** [String.prototype.trim] on ASCII text: it strips the ASCII white space
    characters (tab, the line ends, vertical tab, form feed, space).  The
    engine's also strips U+00A0, U+FEFF and the Unicode space separators,
    which a text of bytes below 128 does not hold. *)
Definition is_space (c : ascii) : bool :=
  let n := nat_of_ascii c in
  (n =? 32)%nat || ((9 <=? n)%nat && (n <=? 13)%nat).

Fixpoint trim_start (s : string) : string :=
  match s with
  | String.String c s' => if is_space c then trim_start s' else s
  | "" => ""
  end.

Definition string_rev (s : string) : string :=
  string_of_list_ascii (rev (list_ascii_of_string s)).

Definition trim (s : string) : string :=
  string_rev (trim_start (string_rev (trim_start s))).

End Js.

(** ** The zod schemas used by the pages *)

Module Zod.
Import Js.

(** [ZodParsedType], as far as plain form values go. *)
Inductive ParsedType : Type :=
| PTundefined | PTnull | PTboolean | PTnumber | PTnan | PTstring | PTobject.

(** [getParsedType]: a NaN is not a number for zod. *)
Definition getParsedType (v : value) : ParsedType :=
  match v with
  | JsUndefined => PTundefined
  | JsNull => PTnull
  | JsBoolean _ => PTboolean
  | JsNumber n => if isNaN n then PTnan else PTnumber
  | JsString _ => PTstring
  | JsObject => PTobject
  end.

Definition type_name (t : ParsedType) : string :=
  match t with
  | PTundefined => "undefined"
  | PTnull => "null"
  | PTboolean => "boolean"
  | PTnumber => "number"
  | PTnan => "nan"
  | PTstring => "string"
  | PTobject => "object"
  end.

Inductive IssueCode : Type := invalid_type | too_small | too_big.

Record Issue : Type := mkIssue {
  code : IssueCode;
  path : list string;
  message : string
}.

(** The default error map for [invalid_type]. *)
Definition invalid_type_message (expected received : ParsedType) : string :=
  match received with
  | PTundefined => "Required"
  | _ => "Expected " +:+ type_name expected +:+ ", received " +:+ type_name received
  end.

Definition invalid_type_issue (p : list string) (expected received : ParsedType) : Issue :=
  mkIssue invalid_type p (invalid_type_message expected received).

(** Checks of a string schema ([min] is the only one the pages use). *)
Inductive StringCheck : Type :=
| StrMin (value : nat) (msg : string).

(** Checks of a number schema: [min]/[max] with their inclusiveness. *)
Inductive NumberCheck : Type :=
| NumMin (value : number) (inclusive : bool) (msg : string)
| NumMax (value : number) (inclusive : bool) (msg : string).

Inductive ZodType : Type :=
| ZodString (checks : list StringCheck)
| ZodNumber (checks : list NumberCheck).

(** Schema builders, in the order the source chains them; [min_length]
    is the [min] of a string schema, [min] the one of a number schema. *)
Definition string_ : ZodType := ZodString [].
Definition number_ : ZodType := ZodNumber [].

Definition min_length (n : nat) (msg : string) (t : ZodType) : ZodType :=
  match t with
  | ZodString cs => ZodString (cs ++ [StrMin n msg])
  | _ => t
  end.

Definition min (v : Z) (msg : string) (t : ZodType) : ZodType :=
  match t with
  | ZodNumber cs => ZodNumber (cs ++ [NumMin (of_Z v) true msg])
  | _ => t
  end.

Definition max (v : Z) (msg : string) (t : ZodType) : ZodType :=
  match t with
  | ZodNumber cs => ZodNumber (cs ++ [NumMax (of_Z v) true msg])
  | _ => t
  end.

Definition positive (msg : string) (t : ZodType) : ZodType :=
  match t with
  | ZodNumber cs => ZodNumber (cs ++ [NumMin (of_Z 0) false msg])
  | _ => t
  end.

(** One string check: an issue when [data.length < value]. *)
Definition run_string_check (p : list string) (s : string) (c : StringCheck) : list Issue :=
  match c with
  | StrMin v msg =>
      if (String.length s <? v)%nat then [mkIssue too_small p msg] else []
  end.

(** One number check.  [min]: too small when [data < value] (inclusive) or
    [data <= value] (exclusive); [max] symmetrically. *)
Definition run_number_check (p : list string) (n : number) (c : NumberCheck) : list Issue :=
  match c with
  | NumMin v inclusive msg =>
      let tooSmall := if inclusive then lt n v else le n v in
      if tooSmall then [mkIssue too_small p msg] else []
  | NumMax v inclusive msg =>
      let tooBig := if inclusive then gt n v else ge n v in
      if tooBig then [mkIssue too_big p msg] else []
  end.

(** [_parse] of a leaf schema: a value of the wrong type yields one
    [invalid_type] issue and no check runs; otherwise every check runs
    and each failing one adds its issue. *)
Definition parse_type (t : ZodType) (p : list string) (input : value) : list Issue :=
  match t with
  | ZodString checks =>
      match input with
      | JsString s => flat_map (run_string_check p s) checks
      | _ => [invalid_type_issue p PTstring (getParsedType input)]
      end
  | ZodNumber checks =>
      match input with
      | JsNumber n =>
          if isNaN n then [invalid_type_issue p PTnumber PTnan]
          else flat_map (run_number_check p n) checks
      | _ => [invalid_type_issue p PTnumber (getParsedType input)]
      end
  end.

(** An object schema: its shape, in declaration order. *)
Definition ZodObject : Type := list (string * ZodType).

(** A plain object: a finite map from property names to values; reading
    an absent property gives [undefined]. *)
Definition get (data : gmap string value) (k : string) : value :=
  default JsUndefined (data !! k).

(** The schema a shape gives to a key. *)
Fixpoint shape_lookup (shape : ZodObject) (k : string) : option ZodType :=
  match shape with
  | [] => None
  | (k', t) :: rest => if decide (k' = k) then Some t else shape_lookup rest k
  end.

(** [ZodObject._parse]: every key of the shape is parsed, in order, at
    path [[key]], and all the issues are gathered. *)
Definition object_issues (shape : ZodObject) (data : gmap string value) : list Issue :=
  flat_map (fun kt => parse_type (snd kt) [fst kt] (get data (fst kt))) shape.

(** [schema.parse(data)]: the data (unknown keys stripped) when no issue
    was raised, otherwise a [ZodError] carrying all of them. *)
Inductive ParseResult : Type :=
| Parsed (data : gmap string value)
| ZodError (errors : list Issue).

Definition parse (shape : ZodObject) (data : gmap string value) : ParseResult :=
  match object_issues shape data with
  | [] => Parsed (filter (fun kv => kv.1 ∈ shape.*1) data)
  | issues => ZodError issues
  end.

End Zod.

(** ** The search page (src/unnamed/part_000) *)

Module SearchMedicine.
Import Js Zod.

Definition API_URL : string := "http://localhost:8000".

(** [interface Medicine]; the field [name] is [medicineName] here, since
    [Store] has a [name] too. *)
Record Medicine : Type := mkMedicine {
  medicineId : string;
  medicineName : string;
  manufacturer : string;
  batchNumber : string;
  expiryDate : string;
  price : number;
  stock : number
}.

(** [interface Store], as [/search] returns it. *)
Record Store : Type := mkStore {
  storeId : string;
  name : string;
  address : string;
  contactNumber : string;
  latitude : number;
  longitude : number;
  medicines : list Medicine;
  distance : number
}.

(** The validation schema. *)
Definition searchSchema : ZodObject :=
  [ ("medicine_name", min_length 1 "Medicine name is required" string_);
    ("latitude",
      max 90 "Latitude must be between -90 and 90"
        (min (-90) "Latitude must be between -90 and 90" number_));
    ("longitude",
      max 180 "Longitude must be between -180 and 180"
        (min (-180) "Longitude must be between -180 and 180" number_));
    ("max_distance", positive "Distance must be greater than zero" number_) ].

(** The component state: one field per [useState]. *)
Record State : Type := mkState {
  searchParams : gmap string value;
  results : list Store;
  searching : bool;
  hasSearched : bool;
  errors : gmap string string
}.

Definition setSearchParams (p : gmap string value) (st : State) : State :=
  mkState p (results st) (searching st) (hasSearched st) (errors st).
Definition setResults (r : list Store) (st : State) : State :=
  mkState (searchParams st) r (searching st) (hasSearched st) (errors st).
Definition setSearching (b : bool) (st : State) : State :=
  mkState (searchParams st) (results st) b (hasSearched st) (errors st).
Definition setHasSearched (b : bool) (st : State) : State :=
  mkState (searchParams st) (results st) (searching st) b (errors st).
Definition setErrors (e : gmap string string) (st : State) : State :=
  mkState (searchParams st) (results st) (searching st) (hasSearched st) e.

Definition initialParams : gmap string value :=
  <["max_distance" := JsNumber (of_Z 5000)]>
    (<["longitude" := JsNumber (of_Z 0)]>
      (<["latitude" := JsNumber (of_Z 0)]>
        (<["medicine_name" := JsString ""]> ∅))).

Definition initialState : State := mkState initialParams [] false false ∅.

Definition is_numeric_field (name : string) : bool :=
  bool_decide (name = "latitude") || bool_decide (name = "longitude")
  || bool_decide (name = "max_distance").

Section ChangeHandler.
(** [parseFloat] is the builtin of the JavaScript engine. *)
Variable parseFloat : string -> number.

(** [handleChange]: the three numeric fields store
    [parseFloat(value) || 0], the others the text itself; the error of
    the edited field, when there is a (truthy) one, is removed. *)
Definition handleChange (name value_ : string) (st : State) : State :=
  let parsedValue :=
    if is_numeric_field name
    then JsNumber (or_zero (parseFloat value_))
    else JsString value_ in
  let st1 := setSearchParams (<[name := parsedValue]> (searchParams st)) st in
  match errors st !! name with
  | Some msg =>
      if string_truthy msg then setErrors (delete name (errors st1)) st1 else st1
  | None => st1
  end.
End ChangeHandler.

(** The body of [error.errors.forEach]: [newErrors[err.path[0]] = err.message].
    Every issue of an object schema has a one-element path (lemma
    [object_issues_path] below), so the empty path is never met. *)
Definition record_issue (newErrors : gmap string string) (err : Issue) : gmap string string :=
  match path err with
  | k :: _ => <[k := message err]> newErrors
  | [] => newErrors
  end.

Definition collect_errors (issues : list Issue) : gmap string string :=
  foldl record_issue ∅ issues.

(** [validateForm]: the verdict, and the state after [setErrors]. *)
Definition validateForm (st : State) : bool * State :=
  match parse searchSchema (searchParams st) with
  | Parsed _ => (true, setErrors ∅ st)
  | ZodError issues => (false, setErrors (collect_errors issues) st)
  end.

(** The errors shown after a validation of the form. *)
Definition validation_errors (st : State) : gmap string string :=
  errors (validateForm st).2.

(** What the handler does to the outside: HTTP requests and toasts. *)
Record Request : Type := mkRequest {
  url : string;
  params : gmap string value
}.

(** The request a valid form sends. *)
Definition search_request (st : State) : Request :=
  mkRequest (API_URL +:+ "/search") (searchParams st).

Record Toast : Type := mkToast {
  title : string;
  description : string;
  destructive : bool
}.

(** The outcome of the awaited request: the data of the response, or a
    failure with the [detail] of the error response, if any. *)
Inductive Response : Type :=
| Fulfilled (data : list Store)
| Rejected (detail : option string).

Record Outcome : Type := mkOutcome {
  state : State;
  requests : list Request;
  toasts : list Toast
}.

(** [error.response?.data?.detail || "Failed to search ..."]. *)
Definition error_description (detail : option string) : string :=
  match detail with
  | Some d => if string_truthy d then d else "Failed to search for medicine. Please try again."
  | None => "Failed to search for medicine. Please try again."
  end.

(** [handleSearch]; [backend] answers the request the handler awaits. *)
Definition handleSearch (backend : Request -> Response) (st : State) : Outcome :=
  let (ok, st1) := validateForm st in
  if negb ok then mkOutcome st1 [] []
  else
    let st2 := setHasSearched true (setSearching true st1) in
    let req := search_request st in
    match backend req with
    | Fulfilled data =>
        let st3 := setResults data st2 in
        let ts :=
          if (length data =? 0)%nat
          then [mkToast "No results found"
                  "We couldn't find any stores with the specified medicine." false]
          else [] in
        mkOutcome (setSearching false st3) [req] ts
    | Rejected detail =>
        let st3 := setResults [] st2 in
        mkOutcome (setSearching false st3) [req]
          [mkToast "Error" (error_description detail) true]
    end.

End SearchMedicine.

(** ** Form states used as examples *)

Module FormExamples.
Import Js SearchMedicine.

(** A form state with the four spec examples of bad input at once:
    empty name, latitude 91, longitude -181, distance 0. *)
Definition all_wrong : State :=
  setSearchParams
    (<["max_distance" := JsNumber (of_Z 0)]>
      (<["longitude" := JsNumber (of_Z (-181))]>
        (<["latitude" := JsNumber (of_Z 91)]>
          (<["medicine_name" := JsString ""]> ∅))))
    initialState.

(** A form state whose medicine name is a single blank. *)
Definition blank_name : State :=
  setSearchParams (<["medicine_name" := JsString " "]> initialParams) initialState.

(** A form state failing two rules of section 4.1 at once: a name of three
    blanks, empty once trimmed, and latitude 91. *)
Definition blank_name_bad_latitude : State :=
  setSearchParams
    (<["latitude" := JsNumber (of_Z 91)]>
      (<["medicine_name" := JsString "   "]> initialParams))
    initialState.

(** A [parseFloat] cut down to the texts of the examples: it reads
    "12.5" and finds no number in anything else. *)
Definition sample_parseFloat (s : string) : number :=
  if String.eqb s "12.5" then Finite (25 # 2) else NaN.

End FormExamples.

(** ** The validation rules of the search query, field by field *)

Module Rules.
Import Js Zod.

(** A number [v] with -90 <= v <= 90. *)
Definition latitude_ok (v : value) : Prop :=
  exists n, v = JsNumber n /\ Le (of_Z (-90)) n /\ Le n (of_Z 90).

(** A number [v] with -180 <= v <= 180. *)
Definition longitude_ok (v : value) : Prop :=
  exists n, v = JsNumber n /\ Le (of_Z (-180)) n /\ Le n (of_Z 180).

(** A number strictly greater than 0. *)
Definition max_distance_ok (v : value) : Prop :=
  exists n, v = JsNumber n /\ Lt (of_Z 0) n.

(** A text that is not empty. *)
Definition medicine_name_ok (v : value) : Prop :=
  exists s, v = JsString s /\ s <> "".

(** A text that is not empty once trimmed. *)
Definition medicine_name_ok_trimmed (v : value) : Prop :=
  exists s, v = JsString s /\ trim s <> "".

(** The message a rejected numeric field carries: the text of the field's
    own check when the value is a number, zod's type message when it is
    not one (NaN included). *)
Definition number_rejection_message (custom : string) (v : value) : string :=
  match getParsedType v with
  | PTnumber => custom
  | received => invalid_type_message PTnumber received
  end.

(** The same for a text field. *)
Definition string_rejection_message (custom : string) (v : value) : string :=
  match getParsedType v with
  | PTstring => custom
  | received => invalid_type_message PTstring received
  end.

(** Field [k] of the raw input breaks the rule the schema enforces on it
    (for the name: a non-empty text, not trimmed). *)
Definition offending (raw : gmap string value) (k : string) : Prop :=
  (k = "medicine_name" /\ ~ medicine_name_ok (get raw k))
  \/ (k = "latitude" /\ ~ latitude_ok (get raw k))
  \/ (k = "longitude" /\ ~ longitude_ok (get raw k))
  \/ (k = "max_distance" /\ ~ max_distance_ok (get raw k)).

(** Field [k] of the raw input breaks its rule of section 4.1 of the
    specification, where the name must be non-empty once trimmed. *)
Definition offending_4_1 (raw : gmap string value) (k : string) : Prop :=
  (k = "medicine_name" /\ ~ medicine_name_ok_trimmed (get raw k))
  \/ (k = "latitude" /\ ~ latitude_ok (get raw k))
  \/ (k = "longitude" /\ ~ longitude_ok (get raw k))
  \/ (k = "max_distance" /\ ~ max_distance_ok (get raw k)).

End Rules.

(** ** The expiry badges of the store page (src/src/pages/StoreDetails.tsx) *)

Module StoreDetails.

(** The time value of a [Date]: milliseconds since the epoch, or [None]
    for an Invalid Date (whose time value is NaN). *)
Definition TimeValue : Type := option Z.

(** [a <= b] and [a > b] on dates compare the time values; with an
    Invalid Date on either side both are false. *)
Definition date_le (a b : TimeValue) : bool :=
  match a, b with
  | Some x, Some y => (x <=? y)%Z
  | _, _ => false
  end.

Definition date_gt (a b : TimeValue) : bool :=
  match a, b with
  | Some x, Some y => (y <? x)%Z
  | _, _ => false
  end.

(** Code that reads the clock.  [clock k] is what the k-th [new Date()]
    of the page returns; a computation takes the number of readings made
    so far and returns its result with the new count. *)
Definition Clocked (A : Type) : Type := (nat -> Z) -> nat -> A * nat.

Definition ret {A} (a : A) : Clocked A := fun _ n => (a, n).

Definition bind {A B} (m : Clocked A) (f : A -> Clocked B) : Clocked B :=
  fun clock n => let (a, n') := m clock n in f a clock n'.

(** [new Date()]. *)
Definition newDate : Clocked Z := fun clock n => (clock n, S n).

Declare Scope clocked_scope.
Delimit Scope clocked_scope with clocked.
Notation "x <- m ;; k" := (bind m (fun x => k))
  (at level 100, m at next level, right associativity) : clocked_scope.

Record Badges : Type := mkBadges {
  expiringSoonBadge : bool;
  expiredBadge : bool
}.

Section Badges.
(** The [Date] builtins of the engine: [new Date(s)] on a string, and
    [getMonth]/[setMonth], which work in the local time zone. *)
Variable parseDate : string -> TimeValue.
Variable getMonth : Z -> Z.
Variable setMonth : Z -> Z -> TimeValue.

Definition isExpiringSoon (dateString : string) : Clocked bool :=
  (let expiryDate := parseDate dateString in
   today <- newDate ;;
   created <- newDate ;;
   let threeMonthsFromNow := setMonth created (getMonth today + 3) in
   ret (date_le expiryDate threeMonthsFromNow && date_gt expiryDate (Some today)))%clocked.

Definition isExpired (dateString : string) : Clocked bool :=
  (let expiryDate := parseDate dateString in
   today <- newDate ;;
   ret (date_le expiryDate (Some today)))%clocked.

(** The two expiry badges of one medicine card, evaluated in rendering
    order: first [isExpiringSoon], then [isExpired]. *)
Definition expiryBadges (expiryDate : string) : Clocked Badges :=
  (soon <- isExpiringSoon expiryDate ;;
   expired <- isExpired expiryDate ;;
   ret (mkBadges soon expired))%clocked.
End Badges.

End StoreDetails.

(** ** The [Date] builtins in the UTC time zone

    A concrete engine for the badges: the proleptic Gregorian calendar of
    ECMAScript, with the local time zone set to UTC. *)

Module UtcDate.
Open Scope Z_scope.

Definition msPerDay : Z := 86400000.

(** Day number (days since 1970-01-01) of a civil date; [m] is 1..12. *)
Definition days_from_civil (y m d : Z) : Z :=
  let y' := if m <=? 2 then y - 1 else y in
  let era := y' / 400 in
  let yoe := y' - era * 400 in
  let mp := if 2 <? m then m - 3 else m + 9 in
  let doy := (153 * mp + 2) / 5 + d - 1 in
  let doe := yoe * 365 + yoe / 4 - yoe / 100 + doy in
  era * 146097 + doe - 719468.

(** The civil date (year, month 1..12, day) of a day number. *)
Definition civil_from_days (z : Z) : Z * Z * Z :=
  let z' := z + 719468 in
  let era := z' / 146097 in
  let doe := z' - era * 146097 in
  let yoe := (doe - doe / 1460 + doe / 36524 - doe / 146096) / 365 in
  let doy := doe - (365 * yoe + yoe / 4 - yoe / 100) in
  let mp := (5 * doy + 2) / 153 in
  let d := doy - (153 * mp + 2) / 5 + 1 in
  let m := if mp <? 10 then mp + 3 else mp - 9 in
  let y := yoe + era * 400 in
  ((if m <=? 2 then y + 1 else y), m, d).

(** [Date.prototype.getMonth]: 0 for January. *)
Definition getMonth (t : Z) : Z :=
  let '(_, m, _) := civil_from_days (t / msPerDay) in m - 1.

(** [Date.prototype.setMonth(month)]: [MakeDay] of the year and day of
    the month of [t] with the new month, which may lie outside 0..11 (the
    year is adjusted) and may not have that day (the date overflows into
    the following month); the time within the day is kept. *)
Definition setMonth (t month : Z) : option Z :=
  let '(y, _, d) := civil_from_days (t / msPerDay) in
  let ym := y + month / 12 in
  let mn := month mod 12 in
  Some ((days_from_civil ym (mn + 1) 1 + d - 1) * msPerDay + t mod msPerDay).

(** Decimal digits. *)
Definition digit (c : ascii) : option Z :=
  let n := Z.of_nat (nat_of_ascii c) in
  if (48 <=? n) && (n <=? 57) then Some (n - 48) else None.

Fixpoint digits (acc : Z) (l : list ascii) : option Z :=
  match l with
  | [] => Some acc
  | c :: l' =>
      match digit c with
      | Some v => digits (10 * acc + v) l'
      | None => None
      end
  end.

(** [new Date(s)] for the date-only ISO form [YYYY-MM-DD], which is read
    as midnight UTC; any other text, and a day the month does not have,
    is an Invalid Date here. *)
Definition parseDate (s : string) : option Z :=
  match list_ascii_of_string s with
  | [y1; y2; y3; y4; d1; m1; m2; d2; dd1; dd2] =>
      if Ascii.eqb d1 "-" && Ascii.eqb d2 "-" then
        match digits 0 [y1; y2; y3; y4], digits 0 [m1; m2], digits 0 [dd1; dd2] with
        | Some y, Some m, Some d =>
            if (1 <=? m) && (m <=? 12) && (1 <=? d)
               && (days_from_civil y m d <? days_from_civil y (m + 1) 1)
            then Some (days_from_civil y m d * msPerDay)
            else None
        | _, _, _ => None
        end
      else None
  | _ => None
  end.

(** A clock that ticks from 2026-11-01T23:59:59.999Z to midnight between
    the second and the third reading. *)
Definition midnight_tick (k : nat) : Z :=
  if (k <? 2)%nat then 1793577599999 else 1793577600000.

(** A clock that stands at one instant. *)
Definition frozen (t : Z) (k : nat) : Z := t.

End UtcDate.

(** ** The search core behind [GET /search]

    The page only calls this service; its code is not among the sources.
    Every definition of this module is therefore written from the
    specification (sections 3 and 4), over the real numbers the
    specification uses for coordinates and distances. *)

Module SearchCore.

(** Modelled from the spec: the [Coordinate] of section 3 (the service's
    data types are missing from the sources). *)
Module Coordinate.
Record t : Type := mk { latitude : R; longitude : R }.
End Coordinate.

(** Modelled from the spec: the [Medicine] of section 3. *)
Module Medicine.
Record t : Type := mk {
  id : string;
  name : string;
  manufacturer : string;
  batchNumber : string;
  expiryDate : string;
  price : R;
  stock : nat
}.
End Medicine.

(** Modelled from the spec: the [Store] of section 3. *)
Module Store.
Record t : Type := mk {
  id : string;
  name : string;
  address : string;
  contactNumber : string;
  location : Coordinate.t;
  medicines : list Medicine.t
}.
End Store.

(** Modelled from the spec: the [SearchQuery] of section 3. *)
Module SearchQuery.
Record t : Type := mk {
  medicineName : string;
  origin : Coordinate.t;
  maxDistanceMeters : R
}.
End SearchQuery.

(** Modelled from the spec: the [SearchResult] of section 3. *)
Module SearchResult.
Record t : Type := mk {
  store : Store.t;
  matchedMedicines : list Medicine.t;
  distanceMeters : R
}.
End SearchResult.

(** *** 4.2 Geodistance calculator *)

Definition earthRadius : R := 6371000.

Definition radians (degrees : R) : R := (degrees * PI / 180)%R.

Definition hav (theta : R) : R := (sin (theta / 2) * sin (theta / 2))%R.

(** Modelled from the spec: the geodistance calculator of section 4.2
    (missing from the sources), the haversine formula on a sphere of
    radius 6,371,000 m. *)
Definition distance (a b : Coordinate.t) : R :=
  let phi1 := radians (Coordinate.latitude a) in
  let phi2 := radians (Coordinate.latitude b) in
  let dphi := (phi2 - phi1)%R in
  let dlambda := (radians (Coordinate.longitude b) - radians (Coordinate.longitude a))%R in
  let h := (hav dphi + cos phi1 * cos phi2 * hav dlambda)%R in
  (2 * earthRadius * asin (sqrt h))%R.

(** *** 4.3 Medicine matcher *)

Definition to_lower (c : ascii) : ascii :=
  let n := nat_of_ascii c in
  if (65 <=? n)%nat && (n <=? 90)%nat then ascii_of_nat (n + 32) else c.

Fixpoint lower (s : string) : string :=
  match s with
  | "" => ""
  | String.String c s' => String.String (to_lower c) (lower s')
  end.

Fixpoint starts_with (p s : string) : bool :=
  match p, s with
  | "", _ => true
  | String.String _ _, "" => false
  | String.String a p', String.String b s' => Ascii.eqb a b && starts_with p' s'
  end.

(** [s] has [sub] as a substring. *)
Fixpoint includes (s sub : string) : bool :=
  starts_with sub s
  || match s with
     | "" => false
     | String.String _ s' => includes s' sub
     end.

(** Modelled from the spec: the matching policy of section 4.3 (missing
    from the sources): the name contains the query text, compared without
    regard to case; no other field of the medicine is looked at. *)
Definition medicine_matches (q : SearchQuery.t) (m : Medicine.t) : bool :=
  includes (lower (Medicine.name m)) (lower (SearchQuery.medicineName q)).

(** Modelled from the spec: [matches] of section 4.3, the matching
    medicines of a store in inventory order. *)
Definition matches (q : SearchQuery.t) (s : Store.t) : list Medicine.t :=
  List.filter (medicine_matches q) (Store.medicines s).

(** *** 4.5 Search orchestrator, steps 1 to 5 for one store *)

(** Modelled from the spec: the per-store steps of section 4.5. *)
Definition evaluate (q : SearchQuery.t) (s : Store.t) : option SearchResult.t :=
  let d := distance (SearchQuery.origin q) (Store.location s) in
  if Rgt_dec d (SearchQuery.maxDistanceMeters q) then None
  else
    match matches q s with
    | [] => None
    | matched => Some (SearchResult.mk s matched d)
    end.

(** The store passes both filters. *)
Definition kept (q : SearchQuery.t) (s : Store.t) : bool :=
  match evaluate q s with Some _ => true | None => false end.

(** The results emitted for a catalog, in catalog order. *)
Definition emitted (q : SearchQuery.t) (catalog : list Store.t) : list SearchResult.t :=
  omap (evaluate q) catalog.

(** *** 4.4 Result ranker *)

(** [r] goes in front of the first result that is not closer than it. *)
Fixpoint insert_result (r : SearchResult.t) (l : list SearchResult.t) : list SearchResult.t :=
  match l with
  | [] => [r]
  | x :: l' =>
      if Rle_dec (SearchResult.distanceMeters r) (SearchResult.distanceMeters x)
      then r :: x :: l'
      else x :: insert_result r l'
  end.

(** Modelled from the spec: the ranker of section 4.4 (missing from the
    sources), a stable sort by ascending distance. *)
Definition rank (l : list SearchResult.t) : list SearchResult.t :=
  foldr insert_result [] l.

(** Modelled from the spec: [search] of section 4.5. *)
Definition search (q : SearchQuery.t) (catalog : list Store.t) : list SearchResult.t :=
  rank (emitted q catalog).

(** [x] is not farther than [y]. *)
Definition closer (x y : SearchResult.t) : Prop :=
  (SearchResult.distanceMeters x <= SearchResult.distanceMeters y)%R.

(** The store passes both filters and lies at distance [d]. *)
Definition kept_at (q : SearchQuery.t) (d : R) (s : Store.t) : bool :=
  kept q s
  && (if Req_dec_T (distance (SearchQuery.origin q) (Store.location s)) d
      then true else false).

(** [name] contains [query] as a substring, letter case set aside. *)
Definition contains_ignoring_case (name query : string) : Prop :=
  exists pre post, lower name = pre +:+ lower query +:+ post.

(** The results of a list that lie at distance [d], in order. *)
Definition at_distance (d : R) (l : list SearchResult.t) : list SearchResult.t :=
  List.filter
    (fun r => if Req_dec_T (SearchResult.distanceMeters r) d then true else false) l.

(** *** The scenario of section 8, with both stores at the origin *)

Definition here : Coordinate.t := Coordinate.mk 10 20.

Definition paracetamol (stock : nat) : Medicine.t :=
  Medicine.mk "m1" "Paracetamol" "Acme" "B-1" "2020-01-01" 5 stock.

Definition storeA : Store.t :=
  Store.mk "A" "Store A" "1 Main St" "555-0001" here [paracetamol 5].

Definition storeB : Store.t :=
  Store.mk "B" "Store B" "2 Main St" "555-0002" here [paracetamol 0].

Definition query (text : string) : SearchQuery.t :=
  SearchQuery.mk text here 5000.

End SearchCore.

(** ** Texts compared without regard to letter case

    A statement of "the same text, letter case set aside" that does not go
    through any case conversion: letter by letter, on the codes of the
    characters. *)

Module IgnoringCase.

(** [a] and [b] are the same character, or the upper-case and lower-case
    forms of one letter of A-Z (codes 65-90 and 97-122). *)
Definition same_letter (a b : ascii) : Prop :=
  a = b
  \/ (65 <= nat_of_ascii a <= 90 /\ nat_of_ascii b = nat_of_ascii a + 32)%nat
  \/ (65 <= nat_of_ascii b <= 90 /\ nat_of_ascii a = nat_of_ascii b + 32)%nat.

(** [s] and [t] have the same length and the same letters, position by
    position. *)
Fixpoint same_text (s t : string) : Prop :=
  match s, t with
  | "", "" => True
  | String.String a s', String.String b t' => same_letter a b /\ same_text s' t'
  | _, _ => False
  end.

(** Some part of [name] is the text [query], letter case set aside. *)
Definition occurs_ignoring_case (name query : string) : Prop :=
  exists pre mid post, name = pre +:+ mid +:+ post /\ same_text mid query.

(** Every character of the text is an ASCII character (code below 128). *)
Fixpoint is_ascii_text (s : string) : bool :=
  match s with
  | "" => true
  | String.String c s' => (nat_of_ascii c <? 128)%nat && is_ascii_text s'
  end.



End IgnoringCase.

(** ** The other handlers of the search page (src/unnamed/part_000) *)

Module SearchMedicineHandlers.
Import Js SearchMedicine.

(** What the browser answers to [getCurrentPosition]: no geolocation at
    all, a position, an error, or nothing (yet). *)
Inductive Geolocation : Type :=
| GeoUnsupported
| GeoPosition (coords_latitude coords_longitude : number)
| GeoFailure
| GeoPending.

(** [useCurrentLocation]: a position overwrites the two coordinates of the
    form; nothing else of the state is touched, the error table included. *)
Definition useCurrentLocation (geo : Geolocation) (st : State) : State * list Toast :=
  match geo with
  | GeoUnsupported =>
      (st, [mkToast "Error"
              "Geolocation is not supported by your browser. Please enter coordinates manually."
              true])
  | GeoPosition lat lon =>
      (setSearchParams
         (<["longitude" := JsNumber lon]> (<["latitude" := JsNumber lat]> (searchParams st)))
         st,
       [mkToast "Location detected" "Your current location has been set." false])
  | GeoFailure =>
      (st, [mkToast "Error"
              "Could not get your current location. Please enter coordinates manually."
              true])
  | GeoPending => (st, [])
  end.

(** The decimal digits of a natural number. *)
Definition decimal (n : Z) : string :=
  NilZero.string_of_uint (N.to_uint (Z.to_N n)).

(** The integer nearest to a non-negative rational, the larger one of two. *)
Definition nearest (x : Q) : Z := Qfloor (x + (1 # 2)).

Fixpoint zeros (k : nat) : string :=
  match k with
  | O => ""
  | S k' => String.String "0" (zeros k')
  end.

(** The digits [m] of [n] with a point before the last [f] of them, padded
    on the left with zeros up to [f + 1] digits. *)
Definition with_point (f : nat) (m : string) : string :=
  match f with
  | O => m
  | _ =>
      let m' := zeros (S f - String.length m) +:+ m in
      let k := String.length m' in
      substring 0 (k - f) m' +:+ "." +:+ substring (k - f) f m'
  end.

Section Formatting.
(** The division of doubles, and [Number::toString] for the finite numbers
    of magnitude 10^21 and more, are left to the engine. *)
Variable divide : number -> number -> number.
Variable toString_large : Q -> string.

(** [Number.prototype.toFixed(fractionDigits)]. *)
Definition toFixed (fractionDigits : nat) (x : number) : string :=
  match x with
  | NaN => "NaN"
  | PosInfinity => "Infinity"
  | NegInfinity => "-Infinity"
  | Finite q =>
      if Qle_bool (inject_Z (10 ^ 21)) (Qabs q) then toString_large q
      else
        let n := nearest (Qabs q * inject_Z (10 ^ Z.of_nat fractionDigits)) in
        let s := match (q ?= 0)%Q with Datatypes.Lt => "-" | _ => "" end in
        s +:+ with_point fractionDigits (decimal n)
  end.

(** [formatDistance]. *)
Definition formatDistance (meters : number) : string :=
  if lt meters (of_Z 1000)
  then toFixed 0 meters +:+ " m"
  else toFixed 1 (divide meters (of_Z 1000)) +:+ " km".
End Formatting.

(** A division without rounding, for the examples (the engine's rounds its
    result to a double). *)
Definition sample_divide (a b : number) : number :=
  match a, b with
  | Finite x, Finite y => Finite (x / y)
  | _, _ => NaN
  end.

(** A stand-in for the engine's printer of large numbers. *)
Definition sample_toString_large (q : Q) : string := "1e+21".

End SearchMedicineHandlers.

(** ** Deleting a medicine on the store page (src/src/pages/StoreDetails.tsx) *)

Module StoreDetailsPage.
Import Js.

Definition API_URL : string := "http://localhost:8000".

(** [interface Store] of the page; its medicines have the same interface as
    on the search page. *)
Record Store : Type := mkStore {
  storeId : string;
  name : string;
  address : string;
  contactNumber : string;
  latitude : number;
  longitude : number;
  medicines : list SearchMedicine.Medicine;
  userId : string
}.

(** [{...store, medicines: ms}]. *)
Definition with_medicines (ms : list SearchMedicine.Medicine) (s : Store) : Store :=
  mkStore (storeId s) (name s) (address s) (contactNumber s)
          (latitude s) (longitude s) ms (userId s).

Record State : Type := mkState {
  store : option Store;
  loading : bool
}.

Definition setStore (s : option Store) (st : State) : State := mkState s (loading st).

Inductive Method : Type := GET | DELETE.

Record Request : Type := mkRequest {
  method : Method;
  url : string
}.

Record Outcome : Type := mkOutcome {
  state : State;
  requests : list Request;
  toasts : list SearchMedicine.Toast
}.

(** [store.medicines.filter(med => med.medicineId !== medicineId)]. *)
Definition without (medicineId : string) (ms : list SearchMedicine.Medicine)
  : list SearchMedicine.Medicine :=
  List.filter (fun med => negb (String.eqb (SearchMedicine.medicineId med) medicineId)) ms.

(** [handleDeleteMedicine].  [routeStoreId] is the [storeId] of the route,
    [captured] the [store] of the render the handler was created in (the
    handler closes over it and does not read the state again), [deleted]
    tells whether the awaited [axios.delete] was fulfilled. *)
Definition handleDeleteMedicine (routeStoreId : string) (captured : option Store)
    (deleted : bool) (medicineId : string) (st : State) : Outcome :=
  let req :=
    mkRequest DELETE
      (API_URL +:+ "/stores/" +:+ routeStoreId +:+ "/medicines/" +:+ medicineId) in
  if deleted then
    let st1 :=
      match captured with
      | Some s => setStore (Some (with_medicines (without medicineId (medicines s)) s)) st
      | None => st
      end in
    mkOutcome st1 [req]
      [SearchMedicine.mkToast "Success" "Medicine deleted successfully" false]
  else
    mkOutcome st [req]
      [SearchMedicine.mkToast "Error" "Failed to delete medicine. Please try again." true].

(** The medicines the page lists. *)
Definition inventory (st : State) : list SearchMedicine.Medicine :=
  match store st with
  | Some s => medicines s
  | None => []
  end.

End StoreDetailsPage.

(** ** A store page used as an example *)

Module PageExamples.
Import Js StoreDetailsPage.

Definition aspirin : SearchMedicine.Medicine :=
  SearchMedicine.mkMedicine "m1" "Aspirin" "Acme" "B-1" "2027-01-31"
    (Finite (5 # 2)) (of_Z 20).

Definition ibuprofen : SearchMedicine.Medicine :=
  SearchMedicine.mkMedicine "m2" "Ibuprofen" "Acme" "B-2" "2026-12-31"
    (Finite 4) (of_Z 3).

Definition pharmacy : Store :=
  mkStore "s1" "Central Pharmacy" "1 Main St" "555-0001" (of_Z 10) (of_Z 20)
    [aspirin; ibuprofen] "user123".

Definition pharmacy_page : State := mkState (Some pharmacy) false.

End PageExamples.

(** ** The store list of the home page (src/src/pages/EditStore.tsx, [Index]) *)

Module IndexPage.
Import Js.

(** [interface Store], without the optional [distance]. *)
Record Store : Type := mkStore {
  storeId : string;
  name : string;
  address : string;
  contactNumber : string;
  latitude : number;
  longitude : number;
  medicines : list SearchMedicine.Medicine
}.

(** [String.prototype.toLowerCase] and [includes] on ASCII text: only A-Z
    are folded, where the engine's [toLowerCase] folds every cased letter
    of Unicode.  What is proved of the list that depends on it is stated
    for ASCII queries, names and addresses. *)
Definition toLowerCase (s : string) : string := SearchCore.lower s.
Definition includes (s sub : string) : bool := SearchCore.includes s sub.

(** The predicate of [stores.filter]. *)
Definition shown (searchQuery : string) (store : Store) : bool :=
  includes (toLowerCase (name store)) (toLowerCase searchQuery)
  || includes (toLowerCase (address store)) (toLowerCase searchQuery).

(** [filteredStores], on ASCII text (see [trim] and [toLowerCase]). *)
Definition filteredStores (searchQuery : string) (stores : list Store) : list Store :=
  if String.eqb (trim searchQuery) "" then stores
  else List.filter (shown searchQuery) stores.

End IndexPage.

(** A store of the home page used as an example. *)
Module ListExamples.
Import Js.

Definition listed_pharmacy : IndexPage.Store :=
  IndexPage.mkStore "s1" "Central Pharmacy" "1 Main St" "555-0001" (of_Z 10) (of_Z 20) [].

End ListExamples.

(** ** The form of a new store (src/src/pages/AddStore.tsx) *)

Module AddStore.
Import Js Zod.

Definition API_URL : string := "http://localhost:8000".

Definition storeSchema : ZodObject :=
  [ ("name", min_length 1 "Store name is required" string_);
    ("address", min_length 1 "Address is required" string_);
    ("contactNumber", min_length 1 "Contact number is required" string_);
    ("latitude",
      max 90 "Latitude must be between -90 and 90"
        (min (-90) "Latitude must be between -90 and 90" number_));
    ("longitude",
      max 180 "Longitude must be between -180 and 180"
        (min (-180) "Longitude must be between -180 and 180" number_));
    ("userId", min_length 1 "User ID is required" string_) ].

Record State : Type := mkState {
  formData : gmap string value;
  errors : gmap string string;
  submitting : bool
}.

Definition setFormData (d : gmap string value) (st : State) : State :=
  mkState d (errors st) (submitting st).
Definition setErrors (e : gmap string string) (st : State) : State :=
  mkState (formData st) e (submitting st).
Definition setSubmitting (b : bool) (st : State) : State :=
  mkState (formData st) (errors st) b.

Definition initialFormData : gmap string value :=
  <["userId" := JsString "user123"]>
    (<["longitude" := JsNumber (of_Z 0)]>
      (<["latitude" := JsNumber (of_Z 0)]>
        (<["contactNumber" := JsString ""]>
          (<["address" := JsString ""]>
            (<["name" := JsString ""]> ∅))))).

Definition initialState : State := mkState initialFormData ∅ false.

Section ChangeHandler.
Variable parseFloat : string -> number.

(** [handleChange]: only the two coordinates are numbers. *)
Definition handleChange (name value_ : string) (st : State) : State :=
  let parsedValue :=
    if bool_decide (name = "latitude") || bool_decide (name = "longitude")
    then JsNumber (or_zero (parseFloat value_))
    else JsString value_ in
  let st1 := setFormData (<[name := parsedValue]> (formData st)) st in
  match errors st !! name with
  | Some msg =>
      if string_truthy msg then setErrors (delete name (errors st1)) st1 else st1
  | None => st1
  end.
End ChangeHandler.

(** [validateForm]; the loop over the issues is the one of the search page. *)
Definition validateForm (st : State) : bool * State :=
  match parse storeSchema (formData st) with
  | Parsed _ => (true, setErrors ∅ st)
  | ZodError issues => (false, setErrors (SearchMedicine.collect_errors issues) st)
  end.

Definition validation_errors (st : State) : gmap string string :=
  errors (validateForm st).2.

(** [axios.post(url, data)]. *)
Record Request : Type := mkRequest {
  url : string;
  data : gmap string value
}.

(** The awaited request is fulfilled, or rejected with the [detail] of the
    error response, if any. *)
Inductive Response : Type :=
| Fulfilled
| Rejected (detail : option string).

Record Outcome : Type := mkOutcome {
  state : State;
  requests : list Request;
  toasts : list SearchMedicine.Toast;
  navigations : list string
}.

(** [error.response?.data?.detail || "Failed to create store ..."]. *)
Definition error_description (detail : option string) : string :=
  match detail with
  | Some d => if string_truthy d then d else "Failed to create store. Please try again."
  | None => "Failed to create store. Please try again."
  end.

(** [handleSubmit]. *)
Definition handleSubmit (backend : Request -> Response) (st : State) : Outcome :=
  let (ok, st1) := validateForm st in
  if negb ok then mkOutcome st1 [] [] []
  else
    let st2 := setSubmitting true st1 in
    let req := mkRequest (API_URL +:+ "/stores") (formData st) in
    match backend req with
    | Fulfilled =>
        mkOutcome (setSubmitting false st2) [req]
          [SearchMedicine.mkToast "Success" "Store created successfully!" false]
          ["/"]
    | Rejected detail =>
        mkOutcome (setSubmitting false st2) [req]
          [SearchMedicine.mkToast "Error" (error_description detail) true]
          []
    end.

(** Field [k] of the form breaks its rule. *)
Definition offending (raw : gmap string value) (k : string) : Prop :=
  ((k = "name" \/ k = "address" \/ k = "contactNumber" \/ k = "userId")
   /\ ~ Rules.medicine_name_ok (get raw k))
  \/ (k = "latitude" /\ ~ Rules.latitude_ok (get raw k))
  \/ (k = "longitude" /\ ~ Rules.longitude_ok (get raw k)).

End AddStore.

(** * Properties *)

(** ** Order of JavaScript numbers *)

Module JsFacts.
Import Js.

Lemma Qcompare_Lt_iff (x y : Q) : (x ?= y)%Q = Datatypes.Lt <-> (x < y)%Q.
Proof. symmetry. apply Qlt_alt. Qed.

Lemma Qcompare_not_Gt_iff (x y : Q) : (x ?= y)%Q <> Datatypes.Gt <-> (x <= y)%Q.
Proof. symmetry. apply Qle_alt. Qed.

(** [lt] and [le] decide the order. *)
Lemma lt_spec (a b : number) : lt a b = true <-> Lt a b.
Proof.
  destruct a, b; unfold Lt, Le; cbn [lt le isNaN];
    try (split; intros; (discriminate || tauto)).
  rewrite <- Qcompare_Lt_iff. destruct (q ?= q0)%Q; split; congruence.
Qed.

Lemma le_spec (a b : number) : le a b = true <-> Le a b.
Proof.
  destruct a, b; unfold Lt, Le; cbn [lt le isNaN];
    try (split; intros; (discriminate || tauto)).
  rewrite <- Qcompare_not_Gt_iff. destruct (q ?= q0)%Q; split; congruence.
Qed.

(** Between numbers that are not NaN, "not less" is "greater or equal". *)
Lemma lt_false_iff (a b : number) :
  isNaN a = false -> isNaN b = false -> (lt a b = false <-> Le b a).
Proof.
  destruct a, b; unfold Lt, Le; cbn [lt le isNaN]; intros; try discriminate;
    try (split; intros; (discriminate || tauto)).
  rewrite Qle_alt, <- (Qcompare_antisym q q0).
  destruct (q ?= q0)%Q; simpl; split; congruence.
Qed.

Lemma le_false_iff (a b : number) :
  isNaN a = false -> isNaN b = false -> (le a b = false <-> Lt b a).
Proof.
  destruct a, b; unfold Lt, Le; cbn [lt le isNaN]; intros; try discriminate;
    try (split; intros; (discriminate || tauto)).
  rewrite Qlt_alt, <- (Qcompare_antisym q q0).
  destruct (q ?= q0)%Q; simpl; split; congruence.
Qed.

Lemma Le_not_NaN_l (a b : number) : Le a b -> isNaN a = false.
Proof. destruct a; unfold Le; simpl; tauto. Qed.

Lemma Le_not_NaN_r (a b : number) : Le a b -> isNaN b = false.
Proof. destruct a, b; unfold Le; simpl; tauto. Qed.

Lemma Lt_not_NaN_r (a b : number) : Lt a b -> isNaN b = false.
Proof. destruct a, b; unfold Lt; simpl; tauto. Qed.

Lemma or_zero_NaN : or_zero NaN = Finite 0.
Proof. reflexivity. Qed.

Lemma or_zero_not_NaN (n : number) : isNaN (or_zero n) = false.
Proof. unfold or_zero. destruct n; simpl; try reflexivity. by destruct (Qeq_bool q 0). Qed.

End JsFacts.

(** ** Issues of the zod schemas *)

Module ZodFacts.
Import Js Zod.

(** Every issue of a leaf schema carries the path it was parsed at. *)
Lemma parse_type_path (t : ZodType) (p : list string) (v : value) :
  Forall (fun i => path i = p) (parse_type t p v).
Proof.
  apply List.Forall_forall. intros i Hi.
  destruct t as [checks | checks]; simpl in Hi.
  - destruct v; simpl in Hi; try (destruct Hi as [<- | []]; reflexivity).
    apply in_flat_map in Hi as (c & _ & Hc).
    destruct c as [n msg]; simpl in Hc.
    destruct (String.length s <? n)%nat; simpl in Hc; [ | contradiction].
    destruct Hc as [<- | []]; reflexivity.
  - destruct v; simpl in Hi; try (destruct Hi as [<- | []]; reflexivity).
    destruct (isNaN n); [destruct Hi as [<- | []]; reflexivity | ].
    apply in_flat_map in Hi as (c & _ & Hc).
    destruct c as [v incl msg | v incl msg]; simpl in Hc.
    + destruct (if incl then lt n v else le n v); simpl in Hc; [ | contradiction].
      destruct Hc as [<- | []]; reflexivity.
    + destruct (if incl then gt n v else ge n v); simpl in Hc; [ | contradiction].
      destruct Hc as [<- | []]; reflexivity.
Qed.

(** Every issue of an object schema has a one-element path: the key. *)
Lemma object_issues_path (shape : ZodObject) (data : gmap string value) :
  Forall (fun i => exists k, path i = [k]) (object_issues shape data).
Proof.
  apply List.Forall_forall. intros i Hi.
  apply in_flat_map in Hi as ([k t] & _ & Hi). simpl in Hi.
  exists k. revert i Hi. apply List.Forall_forall, parse_type_path.
Qed.

(** [parse] fails exactly when some issue was raised. *)
Lemma parse_ZodError (shape : ZodObject) (data : gmap string value) (issues : list Issue) :
  parse shape data = ZodError issues <-> object_issues shape data = issues /\ issues <> [].
Proof.
  unfold parse. destruct (object_issues shape data) as [ | i l]; split.
  - discriminate.
  - intros [<- H]. contradiction.
  - intros [= <-]. split; [reflexivity | discriminate].
  - intros [<- _]. reflexivity.
Qed.

End ZodFacts.

(** ** The search form *)

Module SearchMedicineFacts.
Import Js Zod SearchMedicine JsFacts ZodFacts.

(** Recording issues of other fields leaves the entry of [k] alone. *)
Lemma record_issues_other (issues : list Issue) (m : gmap string string) (k k' : string) :
  k' <> k -> Forall (fun i => path i = [k']) issues ->
  foldl record_issue m issues !! k = m !! k.
Proof.
  intros Hne. revert m. induction issues as [ | i l IH]; intros m Hall; [reflexivity | ].
  inversion Hall as [ | ? ? Hi Hl]; subst. simpl.
  rewrite IH by assumption. unfold record_issue. rewrite Hi.
  by rewrite lookup_insert_ne.
Qed.

(** Recording the issues of field [k]: the message of the last one stays. *)
Lemma record_issues_same (issues : list Issue) (m : gmap string string) (k : string) :
  Forall (fun i => path i = [k]) issues ->
  foldl record_issue m issues !! k =
    match last issues with
    | Some i => Some (message i)
    | None => m !! k
    end.
Proof.
  revert m. induction issues as [ | i l IH]; intros m Hall; [reflexivity | ].
  inversion Hall as [ | ? ? Hi Hl]; subst. simpl.
  rewrite IH by assumption.
  destruct l as [ | j l']; simpl.
  - unfold record_issue. rewrite Hi. by rewrite lookup_insert_eq.
  - destruct (last (j :: l')) eqn:E; [reflexivity | ].
    apply last_None in E. discriminate.
Qed.

(** The error kept for a key of the shape is the message of the last issue
    its own schema raises on its own value; the other fields do not
    matter. *)
Lemma record_object_issues (shape : ZodObject) (data : gmap string value)
      (m : gmap string string) (k : string) :
  NoDup (shape.*1) ->
  foldl record_issue m (object_issues shape data) !! k =
    match shape_lookup shape k with
    | Some t =>
        match last (parse_type t [k] (get data k)) with
        | Some i => Some (message i)
        | None => m !! k
        end
    | None => m !! k
    end.
Proof.
  revert m. induction shape as [ | [k' t] shape IH]; intros m Hnd; [reflexivity | ].
  apply NoDup_cons in Hnd as [Hk' Hnd].
  unfold object_issues in *. simpl. rewrite foldl_app, IH by assumption.
  destruct (decide (k' = k)) as [-> | Hne].
  - assert (shape_lookup shape k = None) as ->.
    { clear -Hk'. induction shape as [ | [k2 t2] shape IH]; [reflexivity | ].
      simpl in *. apply not_elem_of_cons in Hk' as [Hne Hk'].
      destruct (decide (k2 = k)); [congruence | auto]. }
    apply record_issues_same, parse_type_path.
  - destruct (shape_lookup shape k) as [t' | ].
    + destruct (last _); [reflexivity | ].
      eapply record_issues_other; [exact Hne | apply parse_type_path].
    + eapply record_issues_other; [exact Hne | apply parse_type_path].
Qed.

Lemma searchSchema_NoDup : NoDup (searchSchema.*1).
Proof. apply (bool_decide_unpack _). vm_compute. reflexivity. Qed.

(** The errors [validateForm] sets are the recorded issues of the schema. *)
Lemma validateForm_errors (st : State) :
  validation_errors st = collect_errors (object_issues searchSchema (searchParams st)).
Proof.
  unfold validation_errors, validateForm, parse.
  destruct (object_issues searchSchema (searchParams st)); reflexivity.
Qed.

Lemma validateForm_verdict (st : State) :
  (validateForm st).1 = true <-> object_issues searchSchema (searchParams st) = [].
Proof.
  unfold validateForm, parse.
  destruct (object_issues searchSchema (searchParams st)); simpl; split; congruence.
Qed.

(** The error of one field of the form, from its schema alone. *)
Lemma validation_errors_lookup (st : State) (k : string) :
  validation_errors st !! k =
    match shape_lookup searchSchema k with
    | Some t => message <$> last (parse_type t [k] (get (searchParams st) k))
    | None => None
    end.
Proof.
  rewrite validateForm_errors. unfold collect_errors.
  rewrite record_object_issues by apply searchSchema_NoDup.
  destruct (shape_lookup searchSchema k); [ | apply lookup_empty].
  destruct (last _); [reflexivity | apply lookup_empty].
Qed.

End SearchMedicineFacts.

(** ** Validation of the search query *)

Module ValidationFacts.
Import Js Zod SearchMedicine Rules JsFacts ZodFacts SearchMedicineFacts.

(** The issues of a number field bounded on both sides (inclusive). *)
Lemma parse_range_number (p : list string) (lo hi : Z) (msg : string) (n : number) :
  isNaN n = false ->
  parse_type (max hi msg (min lo msg number_)) p (JsNumber n) =
    ((if lt n (of_Z lo) then [mkIssue too_small p msg] else [])
     ++ (if lt (of_Z hi) n then [mkIssue too_big p msg] else []))%list.
Proof. intros Hn. simpl. rewrite Hn, app_nil_r. reflexivity. Qed.

Lemma parse_positive_number (p : list string) (msg : string) (n : number) :
  isNaN n = false ->
  parse_type (positive msg number_) p (JsNumber n) =
    if le n (of_Z 0) then [mkIssue too_small p msg] else [].
Proof. intros Hn. simpl. rewrite Hn, app_nil_r. reflexivity. Qed.

Ltac wrong_type :=
  split; [split; [discriminate | intros (? & [=] & _)]
         | intros i Hi; simplify_eq; reflexivity].

Lemma range_field (p : list string) (lo hi : Z) (msg : string) (v : value) :
  let issues := parse_type (max hi msg (min lo msg number_)) p v in
  (last issues = None <->
     exists n, v = JsNumber n /\ Le (of_Z lo) n /\ Le n (of_Z hi))
  /\ (forall i, last issues = Some i -> message i = number_rejection_message msg v).
Proof.
  unfold number_rejection_message.
  destruct v as [ | | b | n | s | ]; try (simpl; wrong_type).
  destruct (isNaN n) eqn:Hn.
  { destruct n; try discriminate. simpl.
    split; [split; [discriminate | ] | intros i Hi; simplify_eq; reflexivity].
    intros (n' & [= <-] & H & _). apply Le_not_NaN_r in H. discriminate. }
  cbv zeta. rewrite parse_range_number by assumption.
  cbn [getParsedType]. rewrite Hn.
  pose proof (lt_false_iff n (of_Z lo) Hn eq_refl) as Hlo.
  pose proof (lt_false_iff (of_Z hi) n eq_refl Hn) as Hhi.
  split.
  - destruct (lt n (of_Z lo)), (lt (of_Z hi) n); simpl; split;
      try discriminate; try reflexivity.
    + intros (n' & [= <-] & H1 & H2). apply Hlo in H1. discriminate.
    + intros (n' & [= <-] & H1 & H2). apply Hlo in H1. discriminate.
    + intros (n' & [= <-] & H1 & H2). apply Hhi in H2. discriminate.
    + intros _. exists n. split; [reflexivity | ].
      split; [apply Hlo | apply Hhi]; reflexivity.
  - destruct (lt n (of_Z lo)), (lt (of_Z hi) n); simpl; intros i Hi; simplify_eq; reflexivity.
Qed.

(** A number field that must be positive. *)
Lemma positive_field (p : list string) (msg : string) (v : value) :
  let issues := parse_type (positive msg number_) p v in
  (last issues = None <-> exists n, v = JsNumber n /\ Lt (of_Z 0) n)
  /\ (forall i, last issues = Some i -> message i = number_rejection_message msg v).
Proof.
  unfold number_rejection_message.
  destruct v as [ | | b | n | s | ]; try (simpl; wrong_type).
  destruct (isNaN n) eqn:Hn.
  { destruct n; try discriminate. simpl.
    split; [split; [discriminate | ] | intros i Hi; simplify_eq; reflexivity].
    intros (n' & [= <-] & H). apply Lt_not_NaN_r in H. discriminate. }
  cbv zeta. rewrite parse_positive_number by assumption.
  cbn [getParsedType]. rewrite Hn.
  pose proof (le_false_iff n (of_Z 0) Hn eq_refl) as H0.
  split.
  - destruct (le n (of_Z 0)); simpl; split; try discriminate; try reflexivity.
    + intros (n' & [= <-] & H1). apply H0 in H1. discriminate.
    + intros _. exists n. split; [reflexivity | apply H0; reflexivity].
  - destruct (le n (of_Z 0)); simpl; intros i Hi; simplify_eq; reflexivity.
Qed.

(** A text field that must have at least one character. *)
Lemma nonempty_field (p : list string) (msg : string) (v : value) :
  let issues := parse_type (min_length 1 msg string_) p v in
  (last issues = None <-> exists s, v = JsString s /\ s <> "")
  /\ (forall i, last issues = Some i -> message i = string_rejection_message msg v).
Proof.
  unfold string_rejection_message.
  destruct v as [ | | b | n | s | ]; try (simpl; wrong_type).
  - simpl. destruct (isNaN n); simpl; wrong_type.
  - destruct s as [ | c s]; simpl.
    + split; [split; [discriminate | intros (s' & [= <-] & H); congruence]
             | intros i Hi; simplify_eq; reflexivity].
    + split; [split; [intros _; eexists; split; [reflexivity | discriminate]
                     | reflexivity]
             | intros i [=]].
Qed.

Lemma latitude_error (st : State) :
  validation_errors st !! "latitude" =
    message <$> last (parse_type
      (max 90 "Latitude must be between -90 and 90"
         (min (-90) "Latitude must be between -90 and 90" number_))
      ["latitude"] (get (searchParams st) "latitude")).
Proof. by rewrite validation_errors_lookup. Qed.

Lemma longitude_error (st : State) :
  validation_errors st !! "longitude" =
    message <$> last (parse_type
      (max 180 "Longitude must be between -180 and 180"
         (min (-180) "Longitude must be between -180 and 180" number_))
      ["longitude"] (get (searchParams st) "longitude")).
Proof. by rewrite validation_errors_lookup. Qed.

Lemma max_distance_error (st : State) :
  validation_errors st !! "max_distance" =
    message <$> last (parse_type
      (positive "Distance must be greater than zero" number_)
      ["max_distance"] (get (searchParams st) "max_distance")).
Proof. by rewrite validation_errors_lookup. Qed.

Lemma medicine_name_error (st : State) :
  validation_errors st !! "medicine_name" =
    message <$> last (parse_type
      (min_length 1 "Medicine name is required" string_)
      ["medicine_name"] (get (searchParams st) "medicine_name")).
Proof. by rewrite validation_errors_lookup. Qed.

Lemma other_key_error (st : State) (k : string) :
  k <> "medicine_name" -> k <> "latitude" -> k <> "longitude" -> k <> "max_distance" ->
  validation_errors st !! k = None.
Proof.
  intros H1 H2 H3 H4. rewrite validation_errors_lookup. simpl.
  repeat (destruct (decide _); [congruence | ]). reflexivity.
Qed.

(** From the last issue of a field to the entry of the error table. *)
Lemma entry_of_last {issues : list Issue} {P : Prop} {msg : string} :
  (last issues = None <-> P) /\ (forall i, last issues = Some i -> message i = msg) ->
  (message <$> last issues = None <-> P)
  /\ (~ P -> message <$> last issues = Some msg).
Proof.
  intros [Hnone Hmsg]. destruct (last issues) as [i | ]; simpl.
  - split; [split; [discriminate | intros HP; apply Hnone in HP; discriminate] | ].
    intros _. f_equal. by apply Hmsg.
  - split; [tauto | ]. intros HP. exfalso. apply HP, Hnone. reflexivity.
Qed.

(** The entry of each field of the search form in the error table. *)
Lemma latitude_entry (st : State) :
  (validation_errors st !! "latitude" = None
   <-> latitude_ok (get (searchParams st) "latitude"))
  /\ (~ latitude_ok (get (searchParams st) "latitude") ->
      validation_errors st !! "latitude" =
        Some (number_rejection_message "Latitude must be between -90 and 90"
                (get (searchParams st) "latitude"))).
Proof. rewrite latitude_error. apply entry_of_last, range_field. Qed.

Lemma longitude_entry (st : State) :
  (validation_errors st !! "longitude" = None
   <-> longitude_ok (get (searchParams st) "longitude"))
  /\ (~ longitude_ok (get (searchParams st) "longitude") ->
      validation_errors st !! "longitude" =
        Some (number_rejection_message "Longitude must be between -180 and 180"
                (get (searchParams st) "longitude"))).
Proof. rewrite longitude_error. apply entry_of_last, range_field. Qed.

Lemma max_distance_entry (st : State) :
  (validation_errors st !! "max_distance" = None
   <-> max_distance_ok (get (searchParams st) "max_distance"))
  /\ (~ max_distance_ok (get (searchParams st) "max_distance") ->
      validation_errors st !! "max_distance" =
        Some (number_rejection_message "Distance must be greater than zero"
                (get (searchParams st) "max_distance"))).
Proof. rewrite max_distance_error. apply entry_of_last, positive_field. Qed.

Lemma medicine_name_entry (st : State) :
  (validation_errors st !! "medicine_name" = None
   <-> medicine_name_ok (get (searchParams st) "medicine_name"))
  /\ (~ medicine_name_ok (get (searchParams st) "medicine_name") ->
      validation_errors st !! "medicine_name" =
        Some (string_rejection_message "Medicine name is required"
                (get (searchParams st) "medicine_name"))).
Proof. rewrite medicine_name_error. apply entry_of_last, nonempty_field. Qed.

(** The error table has an entry for a key exactly when the field breaks
    the rule the schema enforces on it. *)
Lemma entry_iff_offending (st : State) (k : string) :
  is_Some (validation_errors st !! k) <-> offending (searchParams st) k.
Proof.
  revert k.
  intros k. rewrite <- not_eq_None_Some. unfold offending.
  pose proof (latitude_entry st) as (Hlat & _).
  pose proof (longitude_entry st) as (Hlon & _).
  pose proof (max_distance_entry st) as (Hdist & _).
  pose proof (medicine_name_entry st) as (Hname & _).
  cbv zeta in *.
  destruct (decide (k = "medicine_name")) as [-> | N1].
  { rewrite Hname. split; [intros H; left; by split | ].
    intros [[_ H] | [[H _] | [[H _] | [H _]]]]; [assumption | discriminate ..]. }
  destruct (decide (k = "latitude")) as [-> | N2].
  { rewrite Hlat. split; [intros H; right; left; by split | ].
    intros [[H _] | [[_ H] | [[H _] | [H _]]]]; [discriminate | assumption | discriminate ..]. }
  destruct (decide (k = "longitude")) as [-> | N3].
  { rewrite Hlon. split; [intros H; right; right; left; by split | ].
    intros [[H _] | [[H _] | [[_ H] | [H _]]]];
      [discriminate | discriminate | assumption | discriminate]. }
  destruct (decide (k = "max_distance")) as [-> | N4].
  { rewrite Hdist. split; [intros H; right; right; right; by split | ].
    intros [[H _] | [[H _] | [[H _] | [_ H]]]];
      [discriminate | discriminate | discriminate | assumption]. }
  rewrite other_key_error by assumption.
  split; [congruence | ]. intros [[H _] | [[H _] | [[H _] | [H _]]]]; congruence.
Qed.

(** The form is refused exactly when some field breaks its enforced rule. *)
Lemma verdict_false_iff_offending (st : State) :
  (validateForm st).1 = false <-> exists k, offending (searchParams st) k.
Proof.
  transitivity (exists k, is_Some (validation_errors st !! k)).
  - rewrite <- not_true_iff_false, validateForm_verdict, validateForm_errors.
    split.
    + intros Hne.
      destruct (object_issues searchSchema (searchParams st)) as [ | i l] eqn:E;
        [contradiction | ].
      pose proof (object_issues_path searchSchema (searchParams st)) as Hp.
      rewrite E in Hp.
      destruct (last (i :: l)) as [j | ] eqn:Hlast;
        [ | apply last_None in Hlast; discriminate].
      apply last_Some in Hlast as [l' Hl'].
      assert (Hj : exists k, path j = [k]).
      { rewrite Hl' in Hp. apply Forall_app in Hp as [_ Hp]. by inversion Hp. }
      destruct Hj as [k Hk]. exists k.
      rewrite Hl'. unfold collect_errors. rewrite foldl_app. simpl.
      unfold record_issue at 1. rewrite Hk, lookup_insert_eq. by eexists.
    + intros [k [m Hk]] E. rewrite E in Hk. unfold collect_errors in Hk. simpl in Hk.
      by rewrite lookup_empty in Hk.
  - split; intros [k Hk]; exists k; by apply entry_iff_offending.
Qed.

End ValidationFacts.

(** ** The claims about the search form *)

Section SearchFormClaims.
Import Js Zod SearchMedicine Rules FormExamples JsFacts ZodFacts SearchMedicineFacts ValidationFacts.

(** C1. For every raw input, validation accepts the latitude iff it is a
    number between -90 and 90, the longitude iff it is a number between
    -180 and 180, the maximum distance iff it is a number strictly greater
    than 0; and a rejected field carries its own message in the error
    table: the text of the field's check for a number out of range, zod's
    type message for a value that is not a number. *)
Theorem numeric_fields_validation (st : State) :
  let raw := searchParams st in
  let errs := validation_errors st in
  ((errs !! "latitude" = None <-> latitude_ok (get raw "latitude"))
   /\ (~ latitude_ok (get raw "latitude") ->
       errs !! "latitude" =
         Some (number_rejection_message "Latitude must be between -90 and 90"
                 (get raw "latitude"))))
  /\ ((errs !! "longitude" = None <-> longitude_ok (get raw "longitude"))
      /\ (~ longitude_ok (get raw "longitude") ->
          errs !! "longitude" =
            Some (number_rejection_message "Longitude must be between -180 and 180"
                    (get raw "longitude"))))
  /\ ((errs !! "max_distance" = None <-> max_distance_ok (get raw "max_distance"))
      /\ (~ max_distance_ok (get raw "max_distance") ->
          errs !! "max_distance" =
            Some (number_rejection_message "Distance must be greater than zero"
                    (get raw "max_distance")))).
Proof.
  cbv zeta. rewrite latitude_error, longitude_error, max_distance_error.
  split; [ | split].
  - apply entry_of_last, range_field.
  - apply entry_of_last, range_field.
  - apply entry_of_last, positive_field.
Qed.

Lemma numeric_fields_validation_witness :
  validation_errors all_wrong !! "latitude" = Some "Latitude must be between -90 and 90"
  /\ validation_errors all_wrong !! "longitude" = Some "Longitude must be between -180 and 180"
  /\ validation_errors all_wrong !! "max_distance" = Some "Distance must be greater than zero".
Proof.
  destruct (numeric_fields_validation all_wrong) as ((_ & Hlat) & (_ & Hlon) & (_ & Hdist)).
  split; [ | split].
  - apply Hlat. intros (n & Hn & _ & H). vm_compute in Hn. simplify_eq. vm_compute in H. congruence.
  - apply Hlon. intros (n & Hn & H & _). vm_compute in Hn. simplify_eq. vm_compute in H. congruence.
  - apply Hdist. intros (n & Hn & H). vm_compute in Hn. simplify_eq. vm_compute in H. congruence.
Defined.


(** C2, as stated, fails: a name made of one blank is empty once trimmed,
    and yet validation accepts it. *)
Lemma whitespace_name_not_rejected :
  get (searchParams blank_name) "medicine_name" = JsString " "
  /\ trim " " = ""
  /\ ~ medicine_name_ok_trimmed (get (searchParams blank_name) "medicine_name")
  /\ validation_errors blank_name !! "medicine_name" = None
  /\ (validateForm blank_name).1 = true.
Proof.
  split; [reflexivity | split; [reflexivity | split; [ | split]]].
  - intros (s & Hs & Ht). vm_compute in Hs. injection Hs as <-. apply Ht. reflexivity.
  - vm_compute. reflexivity.
  - vm_compute. reflexivity.
Qed.

(** C2, amended. Validation rejects the medicine name iff it is not a
    text or is the empty text; nothing is trimmed, so a name made only of
    white space is accepted.  An empty name carries the message
    "Medicine name is required". *)
Theorem medicine_name_validation (st : State) :
  let raw := searchParams st in
  let errs := validation_errors st in
  (errs !! "medicine_name" = None <-> medicine_name_ok (get raw "medicine_name"))
  /\ (~ medicine_name_ok (get raw "medicine_name") ->
      errs !! "medicine_name" =
        Some (string_rejection_message "Medicine name is required"
                (get raw "medicine_name")))
  /\ (forall s, get raw "medicine_name" = JsString s -> s <> "" -> trim s = "" ->
      errs !! "medicine_name" = None).
Proof.
  cbv zeta. rewrite medicine_name_error.
  pose proof (entry_of_last
    (nonempty_field ["medicine_name"] "Medicine name is required"
       (get (searchParams st) "medicine_name"))) as [Hok Hmsg].
  split; [exact Hok | split; [exact Hmsg | ]].
  intros s Hs Hne _. apply Hok. exists s. split; assumption.
Qed.

Lemma medicine_name_validation_witness :
  validation_errors all_wrong !! "medicine_name" = Some "Medicine name is required"
  /\ validation_errors blank_name !! "medicine_name" = None.
Proof.
  split.
  - apply (medicine_name_validation all_wrong).
    intros (s & Hs & Hne). vm_compute in Hs. injection Hs as <-. by apply Hne.
  - apply (medicine_name_validation blank_name) with (s := " ");
      [reflexivity | discriminate | reflexivity].
Defined.

(** C3, as stated, fails: with a name of three blanks and latitude 91 two
    fields break their rule of section 4.1, and the one validation reports
    a single error, for the latitude; the name has no entry. *)
Lemma blank_name_violation_unreported :
  get (searchParams blank_name_bad_latitude) "medicine_name" = JsString "   "
  /\ trim "   " = ""
  /\ offending_4_1 (searchParams blank_name_bad_latitude) "medicine_name"
  /\ offending_4_1 (searchParams blank_name_bad_latitude) "latitude"
  /\ validation_errors blank_name_bad_latitude !! "medicine_name" = None
  /\ dom (validation_errors blank_name_bad_latitude) = ({["latitude"]} : gset string).
Proof.
  split; [reflexivity | split; [reflexivity | split; [ | split; [ | split]]]].
  - left. split; [reflexivity | ].
    intros (s & Hs & Ht). vm_compute in Hs. injection Hs as <-. apply Ht. reflexivity.
  - right; left. split; [reflexivity | ].
    intros (n & Hn & _ & H). vm_compute in Hn. simplify_eq. vm_compute in H. congruence.
  - vm_compute. reflexivity.
  - apply (bool_decide_unpack _). vm_compute. reflexivity.
Qed.

(** C3, amended. Validation is not fail-fast: the error table of one
    validation has an entry for a field exactly when that field breaks the
    rule the schema enforces on it (for the name: a non-empty text, not
    trimmed), whatever the other fields hold; so every offending field is
    reported at once, and with all four fields wrong the table has four
    entries.  The verdict is negative exactly when some field offends. *)
Theorem all_violations_reported (st : State) :
  (forall k, is_Some (validation_errors st !! k) <-> offending (searchParams st) k)
  /\ ((validateForm st).1 = false <-> exists k, offending (searchParams st) k).
Proof.
  split; [intros k; apply entry_iff_offending | apply verdict_false_iff_offending].
Qed.

Lemma all_violations_reported_witness :
  dom (validation_errors all_wrong)
    = ({["medicine_name"; "latitude"; "longitude"; "max_distance"]} : gset string)
  /\ size (validation_errors all_wrong) = 4%nat
  /\ (validateForm all_wrong).1 = false.
Proof.
  split; [ | split].
  - apply set_eq. intros k. rewrite elem_of_dom.
    rewrite (proj1 (all_violations_reported all_wrong) k).
    unfold offending. rewrite !elem_of_union, !elem_of_singleton.
    split.
    + intros [[-> _] | [[-> _] | [[-> _] | [-> _]]]]; tauto.
    + intros [[[-> | ->] | ->] | ->].
      * left. split; [reflexivity | ].
        intros (s & Hs & Hne). vm_compute in Hs. injection Hs as <-. by apply Hne.
      * right; left. split; [reflexivity | ].
        intros (n & Hn & _ & H). vm_compute in Hn. simplify_eq. vm_compute in H. congruence.
      * right; right; left. split; [reflexivity | ].
        intros (n & Hn & H & _). vm_compute in Hn. simplify_eq. vm_compute in H. congruence.
      * right; right; right. split; [reflexivity | ].
        intros (n & Hn & H). vm_compute in Hn. simplify_eq. vm_compute in H. congruence.
  - vm_compute. reflexivity.
  - apply (proj2 (all_violations_reported all_wrong)).
    exists "latitude". right; left. split; [reflexivity | ].
    intros (n & Hn & _ & H). vm_compute in Hn. simplify_eq. vm_compute in H. congruence.
Defined.


(** The handler behind its guard: a refused form is not searched. *)
Lemma refused_form_outcome (backend : Request -> Response) (st : State) :
  (validateForm st).1 = false ->
  handleSearch backend st = mkOutcome (setErrors (validation_errors st) st) [] [].
Proof.
  intros Hbad. unfold handleSearch, validation_errors.
  destruct (validateForm st) as [ok st1] eqn:E. simpl in Hbad. subst ok. simpl.
  f_equal. unfold validateForm in E.
  destruct (parse searchSchema (searchParams st));
    [discriminate | injection E as <-; reflexivity].
Qed.

(** C4, as stated, fails: a name of one blank fails the validation of
    section 4.1 (it is empty once trimmed), and the search is executed all
    the same: the request is issued and the page records the search. *)
Lemma whitespace_name_is_searched :
  offending_4_1 (searchParams blank_name) "medicine_name"
  /\ requests (handleSearch (fun _ => Fulfilled []) blank_name) = [search_request blank_name]
  /\ hasSearched (state (handleSearch (fun _ => Fulfilled []) blank_name)) = true
  /\ hasSearched blank_name = false.
Proof.
  split; [ | split; [ | split]].
  - left. split; [reflexivity | ].
    intros (s & Hs & Ht). vm_compute in Hs. injection Hs as <-. apply Ht. reflexivity.
  - vm_compute. reflexivity.
  - vm_compute. reflexivity.
  - reflexivity.
Qed.

(** C4, amended. When some field of the input breaks the rule the form
    enforces on it (the name is not a non-empty text, a coordinate is not a
    number in range, the distance is not a positive number), the handler
    returns at once: no request is issued (and no toast shown), the
    results, the searching and has-searched flags and the parameters are
    what they were, and only the error table changes, to the errors of this
    validation.  A name that is only white space breaks no enforced rule. *)
Theorem invalid_input_never_searched (backend : Request -> Response) (st : State) :
  (exists k, offending (searchParams st) k) ->
  let o := handleSearch backend st in
  requests o = []
  /\ toasts o = []
  /\ state o = setErrors (validation_errors st) st
  /\ results (state o) = results st
  /\ searching (state o) = searching st
  /\ hasSearched (state o) = hasSearched st
  /\ searchParams (state o) = searchParams st.
Proof.
  intros Hbad. apply verdict_false_iff_offending in Hbad.
  cbv zeta. rewrite (refused_form_outcome backend st Hbad).
  repeat split.
Qed.

Lemma invalid_input_never_searched_witness :
  requests (handleSearch (fun _ => Fulfilled []) all_wrong) = []
  /\ results (state (handleSearch (fun _ => Fulfilled []) all_wrong)) = results all_wrong.
Proof.
  destruct (invalid_input_never_searched (fun _ => Fulfilled []) all_wrong)
    as (Hreq & _ & _ & Hres & _).
  - exists "latitude". right; left. split; [reflexivity | ].
    intros (n & Hn & _ & H). vm_compute in Hn. simplify_eq. vm_compute in H. congruence.
  - split; assumption.
Defined.

(** Conversely a valid form sends exactly one request, with the
    parameters of the form: the guard alone keeps the request back. *)
Lemma valid_input_searched (backend : Request -> Response) (st : State) :
  (validateForm st).1 = true ->
  requests (handleSearch backend st) = [search_request st].
Proof.
  intros Hok. unfold handleSearch.
  destruct (validateForm st) as [ok st1]. simpl in Hok. subst ok. simpl.
  destruct (backend _); reflexivity.
Qed.

Section ChangeHandlerClaims.
Variable parseFloat : string -> number.

Lemma handleChange_params (name value_ : string) (st : State) :
  searchParams (handleChange parseFloat name value_ st) =
    <[name := if is_numeric_field name
              then JsNumber (or_zero (parseFloat value_))
              else JsString value_]> (searchParams st).
Proof.
  unfold handleChange. destruct (errors st !! name) as [msg | ]; [ | reflexivity].
  destruct (string_truthy msg); reflexivity.
Qed.

(** C9. A value typed into the latitude, longitude or max_distance field
    whose [parseFloat] is NaN is stored as the number 0.  A latitude or
    longitude entered so passes validation; a max_distance entered so is
    rejected by the positivity check ("Distance must be greater than
    zero"), not as a value that is not a number. *)
Theorem unparsable_number_stored_as_zero (name value_ : string) (st : State) :
  is_numeric_field name = true ->
  parseFloat value_ = NaN ->
  let st' := handleChange parseFloat name value_ st in
  searchParams st' !! name = Some (JsNumber (Finite 0))
  /\ (name = "latitude" \/ name = "longitude" -> validation_errors st' !! name = None)
  /\ (name = "max_distance" ->
      validation_errors st' !! name = Some "Distance must be greater than zero").
Proof.
  intros Hnum Hnan. cbv zeta.
  assert (Hstored : searchParams (handleChange parseFloat name value_ st) !! name
                    = Some (JsNumber (Finite 0))).
  { rewrite handleChange_params, Hnum, Hnan, lookup_insert_eq. reflexivity. }
  split; [exact Hstored | ].
  pose proof (latitude_entry (handleChange parseFloat name value_ st)) as (Hlat & _).
  pose proof (longitude_entry (handleChange parseFloat name value_ st)) as (Hlon & _).
  pose proof (max_distance_entry (handleChange parseFloat name value_ st)) as (_ & Hdist).
  cbv zeta in *. split.
  - intros [-> | ->].
    + apply Hlat. unfold get. rewrite Hstored. exists (Finite 0).
      split; [reflexivity | split; apply le_spec; reflexivity].
    + apply Hlon. unfold get. rewrite Hstored. exists (Finite 0).
      split; [reflexivity | split; apply le_spec; reflexivity].
  - intros ->. rewrite Hdist.
    + unfold get. rewrite Hstored. reflexivity.
    + unfold get. rewrite Hstored. intros (n & [= <-] & H).
      apply lt_spec in H. discriminate.
Qed.
End ChangeHandlerClaims.

Lemma unparsable_number_stored_as_zero_witness :
  searchParams (handleChange sample_parseFloat "max_distance" "abc" initialState)
    !! "max_distance" = Some (JsNumber (Finite 0))
  /\ validation_errors (handleChange sample_parseFloat "max_distance" "abc" initialState)
       !! "max_distance" = Some "Distance must be greater than zero"
  /\ validation_errors (handleChange sample_parseFloat "latitude" "abc" all_wrong)
       !! "latitude" = None.
Proof.
  destruct (unparsable_number_stored_as_zero sample_parseFloat
              "max_distance" "abc" initialState)
    as (Hstored & _ & Hdist); [reflexivity | reflexivity | ].
  destruct (unparsable_number_stored_as_zero sample_parseFloat
              "latitude" "abc" all_wrong)
    as (_ & Hlat & _); [reflexivity | reflexivity | ].
  split; [exact Hstored | split; [apply Hdist; reflexivity | apply Hlat; by left]].
Defined.

End SearchFormClaims.

(** ** The expiry badges *)

Section BadgeClaims.
Import StoreDetails.
Open Scope Z_scope.

Variable parseDate : string -> TimeValue.
Variable getMonth : Z -> Z.
Variable setMonth : Z -> Z -> TimeValue.

(** The badges in terms of the three clock readings they make. *)
Lemma expiryBadges_readings (s : string) (clock : nat -> Z) (n : nat) :
  expiryBadges parseDate getMonth setMonth s clock n =
    (mkBadges
       (date_le (parseDate s) (setMonth (clock (S n)) (getMonth (clock n) + 3))
        && date_gt (parseDate s) (Some (clock n)))
       (date_le (parseDate s) (Some (clock (S (S n))))),
     S (S (S n))).
Proof. reflexivity. Qed.

Lemma date_le_Some (a : TimeValue) (t : Z) :
  date_le a (Some t) = true <-> exists e, a = Some e /\ e <= t.
Proof.
  destruct a as [e | ]; simpl.
  - rewrite Z.leb_le. split; [intros H; exists e; by split | intros (e' & [= <-] & H); exact H].
  - split; [discriminate | intros (e & [=] & _)].
Qed.

Lemma date_gt_Some (a : TimeValue) (t : Z) :
  date_gt a (Some t) = true <-> exists e, a = Some e /\ t < e.
Proof.
  destruct a as [e | ]; simpl.
  - rewrite Z.ltb_lt. split; [intros H; exists e; by split | intros (e' & [= <-] & H); exact H].
  - split; [discriminate | intros (e & [=] & _)].
Qed.

(** When the clock readings made for a card's two badge checks return
    one and the same instant [today]: Expired is shown iff
    the expiry date is at or before [today]; Expiring Soon is shown iff
    the expiry date is after [today] and at or before the date
    [setMonth] gives for the month of [today] plus three; and the two
    badges are never shown together. *)
Lemma expiry_badges_at_one_instant
    (s : string) (clock : nat -> Z) (n : nat) (today : Z) :
  clock n = today -> clock (S n) = today -> clock (S (S n)) = today ->
  let badges := (expiryBadges parseDate getMonth setMonth s clock n).1 in
  (expiredBadge badges = true <-> exists e, parseDate s = Some e /\ e <= today)
  /\ (expiringSoonBadge badges = true <->
      exists e limit, parseDate s = Some e
                      /\ setMonth today (getMonth today + 3) = Some limit
                      /\ today < e <= limit)
  /\ ~ (expiringSoonBadge badges = true /\ expiredBadge badges = true).
Proof.
  intros H0 H1 H2. rewrite expiryBadges_readings. cbn [fst expiredBadge expiringSoonBadge].
  rewrite H0, H1, H2.
  assert (Hsoon : date_le (parseDate s) (setMonth today (getMonth today + 3))
                  && date_gt (parseDate s) (Some today) = true <->
                  exists e limit, parseDate s = Some e
                      /\ setMonth today (getMonth today + 3) = Some limit
                      /\ today < e <= limit).
  { rewrite andb_true_iff, date_gt_Some.
    destruct (setMonth today (getMonth today + 3)) as [limit | ].
    - rewrite date_le_Some. split.
      + intros [(e & He & Hle) (e' & He' & Hlt)]. exists e, limit.
        rewrite He in He'. injection He' as <-. auto.
      + intros (e & limit' & He & [= <-] & Hlt & Hle). split; exists e; auto.
    - split.
      + intros [H _]. destruct (parseDate s); discriminate.
      + intros (e & limit & _ & [=] & _). }
  split; [apply date_le_Some | split; [exact Hsoon | ]].
  rewrite Hsoon, date_le_Some.
  intros [(e & limit & He & _ & Hlt & _) (e' & He' & Hle)].
  rewrite He in He'. injection He' as <-. lia.
Qed.

End BadgeClaims.

Section BadgeExamples.
Import StoreDetails UtcDate.
Open Scope Z_scope.

(** C10. The expiry badges are meant to exclude each other: a medicine
    whose expiry date is at or before today is Expired and never Expiring
    Soon.  The two checks read the clock separately, and the code breaks
    the property: for a medicine expiring on 2026-11-02 (midnight UTC),
    rendered while the clock passes from 23:59:59.999 to midnight, the
    expiry date is at the instant [isExpired] reads, the medicine is
    flagged Expired, and Expiring Soon is shown as well. *)
Theorem both_badges_across_a_tick :
  parseDate "2026-11-02" = Some (midnight_tick 2%nat)
  /\ expiredBadge
       (expiryBadges parseDate getMonth setMonth "2026-11-02" midnight_tick 0%nat).1 = true
  /\ expiringSoonBadge
       (expiryBadges parseDate getMonth setMonth "2026-11-02" midnight_tick 0%nat).1 = true.
Proof. vm_compute. repeat split; reflexivity. Qed.

Lemma expiry_badges_at_one_instant_witness :
  expiringSoonBadge
    (expiryBadges parseDate getMonth setMonth "2026-12-31" (frozen 1793577600000) 0%nat).1
    = true
  /\ expiredBadge
       (expiryBadges parseDate getMonth setMonth "2026-12-31" (frozen 1793577600000) 0%nat).1
     = false.
Proof.
  pose proof (expiry_badges_at_one_instant parseDate getMonth setMonth
                "2026-12-31" (frozen 1793577600000) 0%nat 1793577600000
                eq_refl eq_refl eq_refl) as (_ & Hsoon & Hexcl).
  cbv zeta in *.
  assert (Hs : expiringSoonBadge
            (expiryBadges parseDate getMonth setMonth "2026-12-31"
               (frozen 1793577600000) 0%nat).1 = true).
  { apply Hsoon. exists 1798675200000, 1801526400000.
    split; [vm_compute; reflexivity | split; [vm_compute; reflexivity | lia]]. }
  split; [exact Hs | ].
  destruct (expiredBadge _) eqn:E; [ | reflexivity].
  exfalso. apply Hexcl. split; [exact Hs | reflexivity].
Defined.

End BadgeExamples.

(** ** The search core *)

Module SearchCoreFacts.
Import SearchCore.
Open Scope R_scope.

(** *** Geodistance *)

Lemma hav_neg (x : R) : hav (- x) = hav x.
Proof.
  unfold hav. replace (- x / 2) with (- (x / 2)) by lra.
  rewrite sin_neg. ring.
Qed.

Lemma hav_0 : hav 0 = 0.
Proof. unfold hav. replace (0 / 2) with 0 by lra. rewrite sin_0. ring. Qed.

Lemma distance_sym (a b : Coordinate.t) : distance a b = distance b a.
Proof.
  unfold distance.
  set (p1 := radians (Coordinate.latitude a)).
  set (p2 := radians (Coordinate.latitude b)).
  set (l1 := radians (Coordinate.longitude a)).
  set (l2 := radians (Coordinate.longitude b)).
  replace (p2 - p1) with (- (p1 - p2)) by ring.
  replace (l2 - l1) with (- (l1 - l2)) by ring.
  rewrite !hav_neg. rewrite (Rmult_comm (cos p1) (cos p2)). reflexivity.
Qed.

Lemma distance_self (a : Coordinate.t) : distance a a = 0.
Proof.
  unfold distance. rewrite !Rminus_diag, hav_0.
  rewrite Rmult_0_r, Rplus_0_r, sqrt_0, asin_0. ring.
Qed.

(** *** Substrings *)

Lemma starts_with_spec (p s : string) :
  starts_with p s = true <-> exists post, s = (p +:+ post)%string.
Proof.
  revert s. induction p as [ | a p IH]; intros s; simpl.
  - split; [intros _; exists s; reflexivity | reflexivity].
  - destruct s as [ | b s].
    + split; [discriminate | intros [post [=]]].
    + rewrite andb_true_iff, IH. split.
      * intros [Hab [post ->]]. apply Ascii.eqb_eq in Hab as ->. by exists post.
      * intros [post [= -> ->]]. split; [apply Ascii.eqb_refl | by exists post].
Qed.

Lemma includes_spec (s sub : string) :
  includes s sub = true <-> exists pre post, s = (pre +:+ sub +:+ post)%string.
Proof.
  induction s as [ | c s IH]; simpl.
  - rewrite orb_false_r, starts_with_spec. split.
    + intros [post ->]. by exists ""%string, post.
    + intros (pre & post & H). destruct pre; [by exists post | discriminate].
  - rewrite orb_true_iff, starts_with_spec, IH. split.
    + intros [[post ->] | (pre & post & ->)].
      * by exists ""%string, post.
      * by exists (String.String c pre), post.
    + intros (pre & post & H). destruct pre as [ | c' pre]; simpl in H.
      * left. by exists post.
      * right. injection H as -> ->. by exists pre, post.
Qed.

(** *** Ranking *)

Lemma insert_result_In (r x : SearchResult.t) (l : list SearchResult.t) :
  In x (insert_result r l) <-> x = r \/ In x l.
Proof.
  induction l as [ | y l IH]; simpl.
  - intuition.
  - destruct (Rle_dec _ _); simpl; [intuition | ]. rewrite IH. intuition.
Qed.

Lemma rank_In (x : SearchResult.t) (l : list SearchResult.t) :
  In x (rank l) <-> In x l.
Proof.
  induction l as [ | y l IH]; simpl; [reflexivity | ].
  rewrite insert_result_In, IH. intuition.
Qed.

Lemma insert_result_sorted (r : SearchResult.t) (l : list SearchResult.t) :
  StronglySorted closer l -> StronglySorted closer (insert_result r l).
Proof.
  induction 1 as [ | y l Hl IH Hy]; simpl.
  - repeat constructor.
  - destruct (Rle_dec _ _) as [Hle | Hgt].
    + constructor; [by constructor | ].
      constructor; [exact Hle | ].
      eapply Forall_impl; [exact Hy | ].
      intros z Hz. unfold closer in *. lra.
    + constructor; [exact IH | ].
      apply List.Forall_forall. intros z Hz.
      apply insert_result_In in Hz as [-> | Hz].
      * unfold closer. lra.
      * revert z Hz. by apply List.Forall_forall.
Qed.

Lemma rank_sorted (l : list SearchResult.t) : StronglySorted closer (rank l).
Proof.
  induction l as [ | r l IH]; simpl; [constructor | by apply insert_result_sorted].
Qed.

(** Inserting [r] does not move it past a result at its own distance. *)
Lemma insert_result_at_distance (d : R) (r : SearchResult.t) (l : list SearchResult.t) :
  at_distance d (insert_result r l) = at_distance d (r :: l).
Proof.
  induction l as [ | x l IH]; [reflexivity | ].
  simpl. destruct (Rle_dec _ _) as [Hle | Hgt]; [reflexivity | ].
  unfold at_distance in *. simpl in *. rewrite IH.
  destruct (Req_dec_T (SearchResult.distanceMeters x) d) as [Hx | Hx];
    destruct (Req_dec_T (SearchResult.distanceMeters r) d) as [Hr | Hr];
    try reflexivity.
  exfalso. apply Hgt. lra.
Qed.

Lemma rank_at_distance (d : R) (l : list SearchResult.t) :
  at_distance d (rank l) = at_distance d l.
Proof.
  induction l as [ | r l IH]; [reflexivity | ].
  simpl. rewrite insert_result_at_distance.
  unfold at_distance in *. simpl. rewrite IH. reflexivity.
Qed.

(** *** One store *)

Lemma evaluate_Some (q : SearchQuery.t) (s : Store.t) (r : SearchResult.t) :
  evaluate q s = Some r <->
    distance (SearchQuery.origin q) (Store.location s) <= SearchQuery.maxDistanceMeters q
    /\ matches q s <> []
    /\ r = SearchResult.mk s (matches q s)
             (distance (SearchQuery.origin q) (Store.location s)).
Proof.
  unfold evaluate. destruct (Rgt_dec _ _) as [Hgt | Hle].
  - split; [discriminate | ]. intros (H & _). lra.
  - destruct (matches q s) as [ | m l] eqn:E.
    + split; [discriminate | intros (_ & H & _); contradiction].
    + split.
      * intros [= <-]. split; [lra | split; [discriminate | reflexivity]].
      * intros (_ & _ & ->). reflexivity.
Qed.

Lemma emitted_In (q : SearchQuery.t) (catalog : list Store.t) (r : SearchResult.t) :
  In r (emitted q catalog) <-> exists s, In s catalog /\ evaluate q s = Some r.
Proof.
  unfold emitted. rewrite <- list_elem_of_In, list_elem_of_omap.
  by setoid_rewrite list_elem_of_In.
Qed.

Lemma search_In (q : SearchQuery.t) (catalog : list Store.t) (r : SearchResult.t) :
  In r (search q catalog) <-> exists s, In s catalog /\ evaluate q s = Some r.
Proof. unfold search. rewrite rank_In. apply emitted_In. Qed.

(** The stores of the emitted results are the kept stores, in catalog
    order. *)
Lemma emitted_stores (q : SearchQuery.t) (catalog : list Store.t) :
  map SearchResult.store (emitted q catalog) = List.filter (kept q) catalog.
Proof.
  unfold emitted, kept. induction catalog as [ | s l IH]; [reflexivity | ].
  simpl. destruct (evaluate q s) as [r | ] eqn:E; simpl; [ | exact IH].
  apply evaluate_Some in E as (_ & _ & ->). simpl. f_equal. exact IH.
Qed.

End SearchCoreFacts.

(** ** Letter case *)

Module IgnoringCaseFacts.
Import SearchCore IgnoringCase SearchCoreFacts.

Lemma ascii_of_nat_inj (n m : nat) :
  (n < 256)%nat -> (m < 256)%nat -> ascii_of_nat n = ascii_of_nat m -> n = m.
Proof.
  intros Hn Hm H. apply (f_equal nat_of_ascii) in H.
  by rewrite !nat_ascii_embedding in H.
Qed.

Lemma nat_of_ascii_inj (a b : ascii) : nat_of_ascii a = nat_of_ascii b -> a = b.
Proof.
  intros H. apply (f_equal ascii_of_nat) in H. by rewrite !ascii_nat_embedding in H.
Qed.

(** The code of the lower-case form of a character. *)
Lemma nat_of_to_lower (a : ascii) :
  nat_of_ascii (to_lower a)
  = if (65 <=? nat_of_ascii a)%nat && (nat_of_ascii a <=? 90)%nat
    then (nat_of_ascii a + 32)%nat else nat_of_ascii a.
Proof.
  unfold to_lower.
  destruct (Nat.leb_spec 65 (nat_of_ascii a)) as [L1 | L1]; [ | reflexivity].
  destruct (Nat.leb_spec (nat_of_ascii a) 90) as [L2 | L2]; [ | reflexivity].
  simpl. apply nat_ascii_embedding. lia.
Qed.

(** Two characters have the same lower-case form exactly when they are the
    same letter. *)
Lemma to_lower_eq_iff (a b : ascii) : to_lower a = to_lower b <-> same_letter a b.
Proof.
  unfold same_letter. split.
  - intros H. apply (f_equal nat_of_ascii) in H. rewrite !nat_of_to_lower in H.
    destruct (Nat.leb_spec 65 (nat_of_ascii a)) as [A1 | A1],
             (Nat.leb_spec (nat_of_ascii a) 90) as [A2 | A2],
             (Nat.leb_spec 65 (nat_of_ascii b)) as [B1 | B1],
             (Nat.leb_spec (nat_of_ascii b) 90) as [B2 | B2]; simpl in H;
      first [ left; apply nat_of_ascii_inj; lia
            | right; left; lia
            | right; right; lia ].
  - intros [-> | [[Ha Hb] | [Hb Ha]]]; [reflexivity | | ].
    + apply nat_of_ascii_inj. rewrite !nat_of_to_lower.
      destruct (Nat.leb_spec 65 (nat_of_ascii a)) as [A1 | A1],
               (Nat.leb_spec (nat_of_ascii a) 90) as [A2 | A2],
               (Nat.leb_spec 65 (nat_of_ascii b)) as [B1 | B1],
               (Nat.leb_spec (nat_of_ascii b) 90) as [B2 | B2]; simpl; lia.
    + apply nat_of_ascii_inj. rewrite !nat_of_to_lower.
      destruct (Nat.leb_spec 65 (nat_of_ascii a)) as [A1 | A1],
               (Nat.leb_spec (nat_of_ascii a) 90) as [A2 | A2],
               (Nat.leb_spec 65 (nat_of_ascii b)) as [B1 | B1],
               (Nat.leb_spec (nat_of_ascii b) 90) as [B2 | B2]; simpl; lia.
Qed.

Lemma lower_eq_iff (s t : string) : lower s = lower t <-> same_text s t.
Proof.
  revert t. induction s as [ | a s IH]; intros [ | b t]; simpl;
    try (split; [discriminate | contradiction]); [tauto | ].
  rewrite <- IH, <- to_lower_eq_iff. split.
  - intros [= H1 H2]. by split.
  - intros [-> ->]. reflexivity.
Qed.

Lemma lower_app (s t : string) : lower (s +:+ t) = lower s +:+ lower t.
Proof. induction s as [ | a s IH]; simpl; [reflexivity | by rewrite IH]. Qed.

Lemma lower_split (s a b : string) :
  lower s = a +:+ b -> exists s1 s2, s = s1 +:+ s2 /\ lower s1 = a /\ lower s2 = b.
Proof.
  revert s. induction a as [ | c a IH]; intros s H; simpl in H.
  - by exists "", s.
  - destruct s as [ | d s]; [discriminate | ]. simpl in H. injection H as Hc H.
    destruct (IH s H) as (s1 & s2 & -> & H1 & H2).
    exists (String.String d s1), s2. simpl. by rewrite Hc, H1.
Qed.

(** The matcher's test, through lower-case forms, says that the query
    occurs in the name letter case set aside. *)
Lemma contains_iff_occurs (name query : string) :
  contains_ignoring_case name query <-> occurs_ignoring_case name query.
Proof.
  unfold contains_ignoring_case, occurs_ignoring_case. split.
  - intros (pre & post & H).
    apply lower_split in H as (n1 & n23 & -> & _ & H).
    apply lower_split in H as (n2 & n3 & -> & H & _).
    exists n1, n2, n3. split; [reflexivity | by apply lower_eq_iff].
  - intros (pre & mid & post & -> & H). apply lower_eq_iff in H.
    exists (lower pre), (lower post). by rewrite !lower_app, H.
Qed.

End IgnoringCaseFacts.

Section SearchCoreClaims.
Import SearchCore SearchCoreFacts IgnoringCase IgnoringCaseFacts.
Open Scope R_scope.

(** C5. The geodistance is symmetric, and the distance from a coordinate
    to itself is exactly 0. *)
Theorem distance_symmetric_and_zero :
  (forall a b : Coordinate.t, distance a b = distance b a)
  /\ (forall a : Coordinate.t, distance a a = 0).
Proof. split; [exact distance_sym | exact distance_self]. Qed.

(** C6. Every result of a search lies within the query's maximum
    distance, and its matched medicines are a non-empty part of the
    medicine list of the store it comes from, a store of the catalog; its
    distance is the one from the query's origin to that store. *)
Theorem search_results_invariant (q : SearchQuery.t) (catalog : list Store.t) :
  Forall
    (fun r =>
       SearchResult.distanceMeters r <= SearchQuery.maxDistanceMeters q
       /\ SearchResult.matchedMedicines r <> []
       /\ incl (SearchResult.matchedMedicines r) (Store.medicines (SearchResult.store r))
       /\ In (SearchResult.store r) catalog
       /\ SearchResult.distanceMeters r =
            distance (SearchQuery.origin q) (Store.location (SearchResult.store r)))
    (search q catalog).
Proof.
  apply List.Forall_forall. intros r Hr.
  apply search_In in Hr as (s & Hs & He).
  apply evaluate_Some in He as (Hd & Hm & ->). simpl.
  split; [exact Hd | split; [exact Hm | split; [ | split; [exact Hs | reflexivity]]]].
  intros m Hin. unfold matches in Hin. by apply filter_In in Hin as [Hin _].
Qed.

Lemma at_distance_emitted (q : SearchQuery.t) (d : R) (catalog : list Store.t) :
  map SearchResult.store (at_distance d (emitted q catalog)) =
    List.filter (kept_at q d) catalog.
Proof.
  unfold emitted, at_distance, kept_at, kept.
  induction catalog as [ | s l IH]; [reflexivity | ].
  simpl. destruct (evaluate q s) as [r | ] eqn:E; simpl; [ | exact IH].
  apply evaluate_Some in E as (_ & _ & ->). simpl.
  destruct (Req_dec_T _ d); simpl; [f_equal | ]; exact IH.
Qed.

(** C7. The output of a search is sorted by non-decreasing distance, and
    it is stable: for every distance, the results at that distance are
    the emitted ones in the order they were emitted, that is, their stores
    are the kept stores at that distance in catalog order. *)
Theorem search_sorted_stable (q : SearchQuery.t) (catalog : list Store.t) :
  StronglySorted closer (search q catalog)
  /\ (forall d, at_distance d (search q catalog) = at_distance d (emitted q catalog))
  /\ (forall d, map SearchResult.store (at_distance d (search q catalog)) =
                List.filter (kept_at q d) catalog).
Proof.
  unfold search. split; [apply rank_sorted | split].
  - intros d. apply rank_at_distance.
  - intros d. rewrite rank_at_distance. apply at_distance_emitted.
Qed.


(** Searching "aspirin" matches "Aspirin 500mg", out of stock and expired
    as it may be. *)
Example aspirin_matches :
  medicine_matches (query "aspirin")
    (Medicine.mk "m2" "Aspirin 500mg" "Acme" "B-2" "1999-01-01" 3 0) = true.
Proof. reflexivity. Qed.


Lemma evaluate_storeA : evaluate (query "paracetamol") storeA
  = Some (SearchResult.mk storeA [paracetamol 5] 0).
Proof.
  apply evaluate_Some. change (Store.location storeA) with here.
  change (SearchQuery.origin (query "paracetamol")) with here.
  rewrite distance_self. simpl.
  split; [lra | split; [discriminate | reflexivity]].
Qed.

Lemma evaluate_storeB : evaluate (query "paracetamol") storeB
  = Some (SearchResult.mk storeB [paracetamol 0] 0).
Proof.
  apply evaluate_Some. change (Store.location storeB) with here.
  change (SearchQuery.origin (query "paracetamol")) with here.
  rewrite distance_self. simpl.
  split; [lra | split; [discriminate | reflexivity]].
Qed.

(** Both stores are returned, the one out of stock too, and at equal
    distance they keep the order of the catalog. *)
Example scenario_paracetamol :
  search (query "paracetamol") [storeA; storeB]
  = [SearchResult.mk storeA [paracetamol 5] 0; SearchResult.mk storeB [paracetamol 0] 0].
Proof.
  unfold search, emitted. simpl omap.
  change (omap (evaluate (query "paracetamol")) [storeA; storeB])
    with (match evaluate (query "paracetamol") storeA with
          | Some r => [r] | None => [] end
          ++ match evaluate (query "paracetamol") storeB with
             | Some r => [r] | None => [] end)%list.
  rewrite evaluate_storeA, evaluate_storeB. simpl.
  destruct (Rle_dec 0 0) as [_ | H]; [reflexivity | exfalso; lra].
Qed.

(** No store stocks Ibuprofen: the result is empty, not an error. *)
Example scenario_ibuprofen : search (query "Ibuprofen") [storeA; storeB] = [].
Proof.
  unfold search, emitted. simpl. unfold evaluate.
  repeat (destruct (Rgt_dec _ _)); reflexivity.
Qed.

End SearchCoreClaims.

(** * More properties of the code *)

(** ** Editing the search form *)

Module SearchFormEditing.
Import Js Zod SearchMedicine Rules JsFacts ZodFacts SearchMedicineFacts ValidationFacts.

(** Every message a validation puts in the error table is a non-empty
    text, hence truthy. *)
Lemma rejection_messages_truthy (custom : string) (v : value) :
  custom <> "" ->
  string_truthy (number_rejection_message custom v) = true
  /\ string_truthy (string_rejection_message custom v) = true.
Proof.
  intros Hc. unfold number_rejection_message, string_rejection_message.
  assert (string_truthy custom = true) by (destruct custom; [congruence | reflexivity]).
  destruct v as [ | | b | n | s | ]; simpl; try (split; (assumption || reflexivity)).
  destruct (isNaN n); split; (assumption || reflexivity).
Qed.

Lemma validation_message_truthy (st : State) (k msg : string) :
  validation_errors st !! k = Some msg -> string_truthy msg = true.
Proof.
  intros Hk.
  pose proof (latitude_entry st) as (Hlat1 & Hlat).
  pose proof (longitude_entry st) as (Hlon1 & Hlon).
  pose proof (max_distance_entry st) as (Hd1 & Hdist).
  pose proof (medicine_name_entry st) as (Hn1 & Hname).
  cbv zeta in *.
  destruct (decide (k = "medicine_name")) as [-> | N1].
  { rewrite Hname in Hk; [ | intros H; apply Hn1 in H; congruence].
    injection Hk as <-. by apply rejection_messages_truthy. }
  destruct (decide (k = "latitude")) as [-> | N2].
  { rewrite Hlat in Hk; [ | intros H; apply Hlat1 in H; congruence].
    injection Hk as <-. by apply rejection_messages_truthy. }
  destruct (decide (k = "longitude")) as [-> | N3].
  { rewrite Hlon in Hk; [ | intros H; apply Hlon1 in H; congruence].
    injection Hk as <-. by apply rejection_messages_truthy. }
  destruct (decide (k = "max_distance")) as [-> | N4].
  { rewrite Hdist in Hk; [ | intros H; apply Hd1 in H; congruence].
    injection Hk as <-. by apply rejection_messages_truthy. }
  rewrite other_key_error in Hk by assumption. discriminate.
Qed.

Lemma Le_or_zero_r (a n : number) : isNaN n = false -> (le a (or_zero n) = le a n).
Proof.
  intros Hn. unfold or_zero. destruct n as [ | | | q]; try reflexivity; try discriminate.
  simpl. destruct (Qeq_bool q 0) eqn:E; [ | reflexivity]. simpl.
  apply Qeq_bool_iff in E. destruct a as [ | | | x]; try reflexivity.
  simpl. rewrite E. reflexivity.
Qed.

Section SearchFormEngine.
Variable parseFloat : string -> number.

Lemma handleChange_errors (name value_ : string) (st : State) :
  errors (handleChange parseFloat name value_ st) =
    match errors st !! name with
    | Some msg => if string_truthy msg then delete name (errors st) else errors st
    | None => errors st
    end.
Proof.
  unfold handleChange. destruct (errors st !! name) as [msg | ]; [ | reflexivity].
  destruct (string_truthy msg); reflexivity.
Qed.

Lemma handleChange_rest (name value_ : string) (st : State) :
  results (handleChange parseFloat name value_ st) = results st
  /\ searching (handleChange parseFloat name value_ st) = searching st
  /\ hasSearched (handleChange parseFloat name value_ st) = hasSearched st.
Proof.
  unfold handleChange. destruct (errors st !! name) as [msg | ]; [ | by repeat split].
  destruct (string_truthy msg); by repeat split.
Qed.

(** X1. An edit touches one field only: the results and the two flags stay,
    every other parameter keeps its value and every other field its error;
    and an edit never adds an entry to the error table. *)
Theorem handleChange_touches_one_field (name value_ : string) (st : State) :
  let st' := handleChange parseFloat name value_ st in
  results st' = results st
  /\ searching st' = searching st
  /\ hasSearched st' = hasSearched st
  /\ (forall k, k <> name ->
        searchParams st' !! k = searchParams st !! k
        /\ errors st' !! k = errors st !! k)
  /\ dom (errors st') ⊆ dom (errors st).
Proof.
  cbv zeta. pose proof (handleChange_rest name value_ st) as (H1 & H2 & H3).
  split; [exact H1 | split; [exact H2 | split; [exact H3 | split]]].
  - intros k Hk. rewrite (handleChange_params parseFloat), handleChange_errors.
    rewrite lookup_insert_ne by congruence. split; [reflexivity | ].
    destruct (errors st !! name) as [msg | ]; [ | reflexivity].
    destruct (string_truthy msg); [ | reflexivity].
    by rewrite lookup_delete_ne by congruence.
  - rewrite handleChange_errors.
    destruct (errors st !! name) as [msg | ]; [ | reflexivity].
    destruct (string_truthy msg); [ | reflexivity].
    apply subseteq_dom, delete_subseteq.
Qed.

(** X2. After a validation, editing a field removes the error of that
    field from the table, whatever is typed, and keeps the errors of the
    other fields as the validation left them. *)
Theorem edit_after_validation_clears_error (name value_ : string) (st : State) :
  let st' := handleChange parseFloat name value_ (validateForm st).2 in
  errors st' !! name = None
  /\ (forall k, k <> name -> errors st' !! k = validation_errors st !! k).
Proof.
  cbv zeta. rewrite handleChange_errors. fold (validation_errors st).
  destruct (validation_errors st !! name) as [msg | ] eqn:E.
  - rewrite (validation_message_truthy st name msg E).
    split; [apply lookup_delete_eq | ].
    intros k Hk. by rewrite lookup_delete_ne by congruence.
  - split; [exact E | reflexivity].
Qed.

(** X3. What a validation says of a numeric field just typed: with [n] the
    stored number [parseFloat(value) || 0], no error when [n] is in range,
    the message of the field's own check otherwise; zod's type message never
    shows, since what is stored is never NaN. *)
Theorem typed_number_validation (value_ : string) (st : State) :
  let n := or_zero (parseFloat value_) in
  validation_errors (handleChange parseFloat "latitude" value_ st) !! "latitude"
    = (if le (of_Z (-90)) n && le n (of_Z 90) then None
       else Some "Latitude must be between -90 and 90")
  /\ validation_errors (handleChange parseFloat "longitude" value_ st) !! "longitude"
     = (if le (of_Z (-180)) n && le n (of_Z 180) then None
        else Some "Longitude must be between -180 and 180")
  /\ validation_errors (handleChange parseFloat "max_distance" value_ st) !! "max_distance"
     = (if lt (of_Z 0) n then None else Some "Distance must be greater than zero").
Proof.
  cbv zeta.
  pose proof (or_zero_not_NaN (parseFloat value_)) as Hn.
  set (n := or_zero (parseFloat value_)) in *.
  assert (Hget : forall name, is_numeric_field name = true ->
            get (searchParams (handleChange parseFloat name value_ st)) name = JsNumber n).
  { intros name Hnum. unfold get.
    rewrite (handleChange_params parseFloat), Hnum, lookup_insert_eq. reflexivity. }
  split; [ | split].
  - set (st' := handleChange parseFloat "latitude" value_ st).
    pose proof (latitude_entry st') as (Hok & Hbad).
    unfold st' in *. rewrite (Hget "latitude" eq_refl) in *.
    destruct (le (of_Z (-90)) n && le n (of_Z 90)) eqn:E.
    + apply andb_true_iff in E as [E1 E2]. apply Hok. exists n.
      split; [reflexivity | split; by apply le_spec].
    + rewrite Hbad.
      * unfold number_rejection_message. simpl. by rewrite Hn.
      * intros (n' & [= <-] & H1 & H2). apply le_spec in H1, H2. rewrite H1, H2 in E. discriminate.
  - set (st' := handleChange parseFloat "longitude" value_ st).
    pose proof (longitude_entry st') as (Hok & Hbad).
    unfold st' in *. rewrite (Hget "longitude" eq_refl) in *.
    destruct (le (of_Z (-180)) n && le n (of_Z 180)) eqn:E.
    + apply andb_true_iff in E as [E1 E2]. apply Hok. exists n.
      split; [reflexivity | split; by apply le_spec].
    + rewrite Hbad.
      * unfold number_rejection_message. simpl. by rewrite Hn.
      * intros (n' & [= <-] & H1 & H2). apply le_spec in H1, H2. rewrite H1, H2 in E. discriminate.
  - set (st' := handleChange parseFloat "max_distance" value_ st).
    pose proof (max_distance_entry st') as (Hok & Hbad).
    unfold st' in *. rewrite (Hget "max_distance" eq_refl) in *.
    destruct (lt (of_Z 0) n) eqn:E.
    + apply Hok. exists n. split; [reflexivity | by apply lt_spec].
    + rewrite Hbad.
      * unfold number_rejection_message. simpl. by rewrite Hn.
      * intros (n' & [= <-] & H1). apply lt_spec in H1. congruence.
Qed.

(** X4. What a validation says of a medicine name just typed: the name is
    stored as typed, and it is rejected, with "Medicine name is required",
    exactly when nothing was typed. *)
Theorem typed_name_validation (value_ : string) (st : State) :
  let st' := handleChange parseFloat "medicine_name" value_ st in
  searchParams st' !! "medicine_name" = Some (JsString value_)
  /\ validation_errors st' !! "medicine_name"
     = (if String.eqb value_ "" then Some "Medicine name is required" else None).
Proof.
  cbv zeta.
  assert (Hp : searchParams (handleChange parseFloat "medicine_name" value_ st)
               !! "medicine_name" = Some (JsString value_)).
  { rewrite (handleChange_params parseFloat), lookup_insert_eq. reflexivity. }
  split; [exact Hp | ].
  pose proof (medicine_name_entry (handleChange parseFloat "medicine_name" value_ st))
    as (Hok & Hbad).
  unfold get in *. rewrite Hp in *. simpl in *.
  destruct (String.eqb_spec value_ "") as [-> | Hne].
  - rewrite Hbad; [reflexivity | ]. intros (s & [= <-] & H). congruence.
  - apply Hok. exists value_. by split.
Qed.

(** X5. From the form as it opens, typing any non-empty medicine name is
    enough for the search to be sent: the form validates, and the request
    carries that name with latitude 0, longitude 0 and distance 5000. *)
Theorem name_alone_makes_the_form_valid
    (backend : Request -> Response) (value_ : string) :
  value_ <> "" ->
  let st := handleChange parseFloat "medicine_name" value_ initialState in
  (validateForm st).1 = true
  /\ requests (handleSearch backend st)
     = [mkRequest (API_URL +:+ "/search")
          (<["medicine_name" := JsString value_]> initialParams)].
Proof.
  intros Hne. cbv zeta.
  assert (Hok : (validateForm (handleChange parseFloat "medicine_name" value_ initialState)).1
                = true).
  { apply validateForm_verdict.
    rewrite (handleChange_params parseFloat). simpl.
    destruct value_ as [ | c s]; [congruence | ]. reflexivity. }
  split; [exact Hok | ].
  rewrite (valid_input_searched backend _ Hok). unfold search_request.
  rewrite (handleChange_params parseFloat). reflexivity.
Qed.

End SearchFormEngine.

Lemma name_alone_makes_the_form_valid_witness :
  requests (handleSearch (fun _ => Fulfilled [])
              (handleChange FormExamples.sample_parseFloat "medicine_name" "aspirin"
                 initialState))
  = [mkRequest (API_URL +:+ "/search") (<["medicine_name" := JsString "aspirin"]> initialParams)].
Proof.
  apply (name_alone_makes_the_form_valid FormExamples.sample_parseFloat
           (fun _ => Fulfilled []) "aspirin").
  discriminate.
Defined.

(** X6. A search with a valid form sends exactly one request, clears the
    error table and ends with [searching] off and [hasSearched] on,
    whatever the answer.  The results become the data of the answer, with
    a "No results found" toast exactly when the data is empty; when the
    request fails the previous results are dropped and one destructive
    toast shows the detail of the error, or the default text when the
    detail is missing or empty. *)
Theorem valid_search_outcome (backend : Request -> Response) (st : State) :
  (validateForm st).1 = true ->
  let o := handleSearch backend st in
  requests o = [search_request st]
  /\ searching (state o) = false
  /\ hasSearched (state o) = true
  /\ errors (state o) = ∅
  /\ searchParams (state o) = searchParams st
  /\ match backend (search_request st) with
     | Fulfilled data =>
         results (state o) = data
         /\ (data = [] -> exists t, toasts o = [t] /\ title t = "No results found"
                                    /\ destructive t = false)
         /\ (data <> [] -> toasts o = [])
     | Rejected detail =>
         results (state o) = []
         /\ exists t, toasts o = [t] /\ title t = "Error" /\ destructive t = true
                      /\ (forall d, detail = Some d -> d <> "" -> description t = d)
                      /\ (detail = None \/ detail = Some "" ->
                          description t = "Failed to search for medicine. Please try again.")
     end.
Proof.
  intros Hok. cbv zeta. unfold handleSearch.
  destruct (validateForm st) as [ok st1] eqn:E. simpl in Hok. subst ok. simpl.
  assert (st1 = setErrors ∅ st) as ->.
  { unfold validateForm in E.
    destruct (parse searchSchema (searchParams st));
      [injection E as <-; reflexivity | discriminate]. }
  destruct (backend (search_request st)) as [data | detail]; simpl.
  - repeat split; try reflexivity.
    + intros ->. simpl. eexists. repeat split; reflexivity.
    + intros Hne. destruct data; [congruence | reflexivity].
  - repeat split; try reflexivity.
    eexists. split; [reflexivity | ]. repeat split; simpl.
    + intros d -> Hd. destruct d; [congruence | reflexivity].
    + intros [-> | ->]; reflexivity.
Qed.

Lemma valid_search_outcome_witness :
  results (state (handleSearch (fun _ => Rejected None)
                    (handleChange FormExamples.sample_parseFloat "medicine_name" "aspirin"
                       initialState))) = [].
Proof.
  pose proof (valid_search_outcome (fun _ => Rejected None)
                (handleChange FormExamples.sample_parseFloat "medicine_name" "aspirin"
                   initialState)) as H.
  cbv zeta in H. apply H. vm_compute. reflexivity.
Defined.

End SearchFormEditing.

(** ** The location button and the distance labels of the search page *)

Module SearchHandlersFacts.
Import Js Zod SearchMedicine Rules SearchMedicineHandlers.
Import JsFacts ZodFacts SearchMedicineFacts ValidationFacts.

(** X7. The location button changes the two coordinates and nothing else:
    without a position the state stays as it is; with one, the coordinates
    of the form are those of the position, the other parameters, the
    results and the flags stay, and so does the error table, which keeps
    showing a coordinate error until the next validation.  That validation
    accepts each coordinate exactly when it is in range. *)
Theorem useCurrentLocation_effect (geo : Geolocation) (st : State) :
  let st' := (useCurrentLocation geo st).1 in
  errors st' = errors st
  /\ results st' = results st
  /\ searching st' = searching st
  /\ hasSearched st' = hasSearched st
  /\ (forall k, k <> "latitude" -> k <> "longitude" ->
        searchParams st' !! k = searchParams st !! k)
  /\ match geo with
     | GeoPosition lat lon =>
         searchParams st' !! "latitude" = Some (JsNumber lat)
         /\ searchParams st' !! "longitude" = Some (JsNumber lon)
         /\ (validation_errors st' !! "latitude" = None
             <-> Le (of_Z (-90)) lat /\ Le lat (of_Z 90))
         /\ (validation_errors st' !! "longitude" = None
             <-> Le (of_Z (-180)) lon /\ Le lon (of_Z 180))
     | _ => st' = st
     end.
Proof.
  cbv zeta. destruct geo as [ | lat lon | | ]; simpl;
    try (repeat split; reflexivity).
  split; [reflexivity | split; [reflexivity | split; [reflexivity | split; [reflexivity | ]]]].
  set (st' := setSearchParams _ st).
  assert (Hlat : searchParams st' !! "latitude" = Some (JsNumber lat)).
  { unfold st'. simpl. rewrite lookup_insert_ne by discriminate. apply lookup_insert_eq. }
  assert (Hlon : searchParams st' !! "longitude" = Some (JsNumber lon)).
  { unfold st'. simpl. apply lookup_insert_eq. }
  split; [ | split; [exact Hlat | split; [exact Hlon | split]]].
  - intros k H1 H2. unfold st'. simpl. by rewrite !lookup_insert_ne by congruence.
  - rewrite (proj1 (latitude_entry st')). unfold latitude_ok, get. rewrite Hlat. simpl.
    split; [intros (n & [= <-] & H); exact H | intros H; by exists lat].
  - rewrite (proj1 (longitude_entry st')). unfold longitude_ok, get. rewrite Hlon. simpl.
    split; [intros (n & [= <-] & H); exact H | intros H; by exists lon].
Qed.

Lemma nearest_bounds (x : Q) :
  (inject_Z (nearest x) - (1 # 2) <= x)%Q /\ (x < inject_Z (nearest x) + (1 # 2))%Q.
Proof.
  unfold nearest.
  pose proof (Qfloor_le (x + (1 # 2))) as H1.
  pose proof (Qlt_floor (x + (1 # 2))) as H2.
  rewrite inject_Z_plus in H2. change (inject_Z 1) with 1%Q in H2.
  split; Lqa.lra.
Qed.

Lemma nearest_unique (x : Q) (k : Z) :
  (inject_Z k - (1 # 2) <= x)%Q -> (x < inject_Z k + (1 # 2))%Q -> nearest x = k.
Proof.
  intros H1 H2. destruct (nearest_bounds x) as [B1 B2].
  assert (Hlt1 : (inject_Z k < inject_Z (nearest x + 1))%Q).
  { rewrite inject_Z_plus. change (inject_Z 1) with 1%Q. Lqa.lra. }
  assert (Hlt2 : (inject_Z (nearest x) < inject_Z (k + 1))%Q).
  { rewrite inject_Z_plus. change (inject_Z 1) with 1%Q. Lqa.lra. }
  rewrite <- Zlt_Qlt in Hlt1, Hlt2. lia.
Qed.

Section FormattingFacts.
Variable divide : number -> number -> number.
Variable toString_large : Q -> string.

(** X8. A distance from 0 up to, but not including, 1000 meters is labelled
    in meters with the integer nearest to it (the larger one of two): the
    label is off by at most half a meter, and every distance from 999.5
    meters on reads "1000 m", never "1.0 km". *)
Theorem formatDistance_meters (q : Q) :
  (0 <= q)%Q -> (q < 1000)%Q ->
  formatDistance divide toString_large (Finite q) = decimal (nearest q) +:+ " m"
  /\ (inject_Z (nearest q) - (1 # 2) <= q)%Q
  /\ (q < inject_Z (nearest q) + (1 # 2))%Q
  /\ ((1999 # 2 <= q)%Q -> formatDistance divide toString_large (Finite q) = "1000 m").
Proof.
  intros H0 H1000.
  assert (Hfmt : formatDistance divide toString_large (Finite q)
                 = decimal (nearest q) +:+ " m").
  { unfold formatDistance.
    assert (lt (Finite q) (of_Z 1000) = true) as ->.
    { apply lt_spec. exact H1000. }
    unfold toFixed.
    assert (Habs : (Qabs q == q)%Q) by (apply Qabs_pos; exact H0).
    assert (Qle_bool (inject_Z (10 ^ 21)) (Qabs q) = false) as ->.
    { destruct (Qle_bool (inject_Z (10 ^ 21)) (Qabs q)) eqn:E; [ | reflexivity].
      apply Qle_bool_iff in E. rewrite Habs in E.
      assert (inject_Z (10 ^ 21) == 1000000000000000000000)%Q by reflexivity.
      Lqa.lra. }
    assert ((q ?= 0)%Q <> Datatypes.Lt) as Hsign.
    { rewrite <- Qlt_alt. Lqa.lra. }
    assert (nearest (Qabs q * inject_Z (10 ^ Z.of_nat 0)) = nearest q) as ->.
    { unfold nearest. apply Qfloor_comp. rewrite Habs.
      change (inject_Z (10 ^ Z.of_nat 0)) with 1%Q. ring. }
    destruct (q ?= 0)%Q; try congruence; reflexivity. }
  destruct (nearest_bounds q) as [B1 B2].
  split; [exact Hfmt | split; [exact B1 | split; [exact B2 | ]]].
  intros Hq. rewrite Hfmt.
  rewrite (nearest_unique q 1000); [reflexivity | | ];
    change (inject_Z 1000) with 1000%Q; Lqa.lra.
Qed.

End FormattingFacts.

Lemma formatDistance_meters_witness :
  formatDistance sample_divide sample_toString_large (Finite (9996 # 10)) = "1000 m".
Proof.
  apply (formatDistance_meters sample_divide sample_toString_large (9996 # 10));
    [discriminate | reflexivity | discriminate].
Defined.

End SearchHandlersFacts.

(** ** Deleting medicines on the store page *)

Module StoreDetailsPageFacts.
Import StoreDetailsPage.

Lemma without_In (id : string) (ms : list SearchMedicine.Medicine) (m : SearchMedicine.Medicine) :
  In m (without id ms) <-> In m ms /\ SearchMedicine.medicineId m <> id.
Proof.
  unfold without. rewrite filter_In, negb_true_iff.
  destruct (String.eqb_spec (SearchMedicine.medicineId m) id); split;
    intros [H1 H2]; (split; [assumption | congruence]).
Qed.

Lemma without_sublist (id : string) (ms : list SearchMedicine.Medicine) :
  sublist (without id ms) ms.
Proof.
  unfold without. induction ms as [ | m ms IH]; simpl; [constructor | ].
  destruct (negb _); by constructor.
Qed.

Lemma without_absent (id : string) (ms : list SearchMedicine.Medicine) :
  (forall m, In m ms -> SearchMedicine.medicineId m <> id) -> without id ms = ms.
Proof.
  unfold without. induction ms as [ | m ms IH]; intros H; simpl; [reflexivity | ].
  destruct (String.eqb_spec (SearchMedicine.medicineId m) id) as [E | _]; simpl.
  - exfalso. apply (H m); [by left | exact E].
  - f_equal. apply IH. intros m' Hm'. apply H. by right.
Qed.

Lemma inventory_after_delete (route : string) (s : Store) (id : string) (st : State) :
  inventory (state (handleDeleteMedicine route (Some s) true id st))
  = without id (medicines s).
Proof. reflexivity. Qed.

(** X9. After a confirmed deletion the page lists exactly the medicines of
    the store that have another id, in their former order: none with the
    deleted id is left, none is added or moved, and the other fields of the
    store are kept.  A deletion that fails leaves the state as it was.  In
    both cases exactly one DELETE request was sent. *)
Theorem handleDeleteMedicine_effect
    (route : string) (s : Store) (deleted : bool) (id : string) (st : State) :
  let o := handleDeleteMedicine route (Some s) deleted id st in
  (exists r, requests o = [r] /\ method r = DELETE)
  /\ (deleted = false -> state o = st)
  /\ (deleted = true ->
        (forall m, In m (inventory (state o)) <->
                   In m (medicines s) /\ SearchMedicine.medicineId m <> id)
        /\ sublist (inventory (state o)) (medicines s)
        /\ (exists s', store (state o) = Some s'
                       /\ storeId s' = storeId s /\ name s' = name s
                       /\ address s' = address s /\ contactNumber s' = contactNumber s
                       /\ latitude s' = latitude s /\ longitude s' = longitude s
                       /\ userId s' = userId s)
        /\ loading (state o) = loading st).
Proof.
  cbv zeta. split; [ | split].
  - destruct deleted; eexists; split; reflexivity.
  - intros ->. reflexivity.
  - intros ->. rewrite inventory_after_delete.
    split; [intros m; apply without_In | ].
    split; [apply without_sublist | ].
    split; [ | reflexivity].
    eexists. split; [reflexivity | ]. repeat split.
Qed.

(** X10. Deleting an id that no listed medicine has changes nothing in the
    list, though the request is sent all the same; and deleting the same id
    a second time, from the page as the first deletion left it, changes
    nothing more. *)
Theorem handleDeleteMedicine_absent_id
    (route : string) (s : Store) (id : string) (st : State) :
  ((forall m, In m (medicines s) -> SearchMedicine.medicineId m <> id) ->
     inventory (state (handleDeleteMedicine route (Some s) true id st)) = medicines s
     /\ requests (handleDeleteMedicine route (Some s) true id st) <> [])
  /\ (let st1 := state (handleDeleteMedicine route (Some s) true id st) in
      state (handleDeleteMedicine route (store st1) true id st1) = st1).
Proof.
  split.
  - intros Habs. rewrite inventory_after_delete.
    split; [by apply without_absent | discriminate].
  - simpl. unfold setStore, with_medicines. simpl. do 3 f_equal.
    apply without_absent. intros m Hm. by apply without_In in Hm as [_ Hm].
Qed.

(** X11. The handler works on the store of the render it was created in,
    not on the current state.  When two deletions are started from the same
    render and both are confirmed, the second to complete puts back the
    medicine the first had removed: the page lists again every medicine
    with the first id, and only those with the second id are gone. *)
Theorem overlapping_deletions_restore_the_first
    (route : string) (s : Store) (a b : string) (st : State) :
  a <> b ->
  let st1 := state (handleDeleteMedicine route (Some s) true a st) in
  let st2 := state (handleDeleteMedicine route (Some s) true b st1) in
  inventory st2 = without b (medicines s)
  /\ (forall m, In m (medicines s) -> SearchMedicine.medicineId m = a ->
        ~ In m (inventory st1) /\ In m (inventory st2)).
Proof.
  intros Hab. cbv zeta. rewrite !inventory_after_delete.
  split; [reflexivity | ].
  intros m Hm Ha. rewrite !without_In. split; [tauto | ].
  split; [exact Hm | congruence].
Qed.

End StoreDetailsPageFacts.

Section StoreDetailsPageExamples.
Import Js StoreDetailsPage StoreDetailsPageFacts.

Lemma handleDeleteMedicine_effect_witness :
  inventory (state (handleDeleteMedicine "s1" (Some PageExamples.pharmacy) true "m1"
                      PageExamples.pharmacy_page))
  = [PageExamples.ibuprofen].
Proof.
  pose proof (handleDeleteMedicine_effect "s1" PageExamples.pharmacy true "m1"
                PageExamples.pharmacy_page) as (_ & _ & H).
  cbv zeta in H. destruct (H eq_refl) as (_ & _ & _). reflexivity.
Defined.

Lemma handleDeleteMedicine_absent_id_witness :
  inventory (state (handleDeleteMedicine "s1" (Some PageExamples.pharmacy) true "m9"
                      PageExamples.pharmacy_page))
  = [PageExamples.aspirin; PageExamples.ibuprofen].
Proof.
  apply (proj1 (handleDeleteMedicine_absent_id "s1" PageExamples.pharmacy "m9"
                  PageExamples.pharmacy_page)).
  intros m [<- | [<- | []]]; discriminate.
Defined.

Lemma overlapping_deletions_restore_the_first_witness :
  In PageExamples.aspirin
     (inventory
        (state (handleDeleteMedicine "s1" (Some PageExamples.pharmacy) true "m2"
                  (state (handleDeleteMedicine "s1" (Some PageExamples.pharmacy) true "m1"
                            PageExamples.pharmacy_page))))).
Proof.
  apply (overlapping_deletions_restore_the_first "s1" PageExamples.pharmacy "m1" "m2"
           PageExamples.pharmacy_page); [discriminate | by left | reflexivity].
Defined.

End StoreDetailsPageExamples.

(** ** Which medicines get an expiry badge *)

Section BadgeCoverage.
Import StoreDetails.
Open Scope Z_scope.

Variable parseDate : string -> TimeValue.
Variable getMonth : Z -> Z.
Variable setMonth : Z -> Z -> TimeValue.

(** X12. A medicine whose expiry date cannot be parsed gets no expiry badge,
    whatever the clock reads.  A medicine whose date is at or before the
    three-month limit gets at least one of the two badges, provided the
    clock does not go back between the first and the last reading. *)
Theorem expiry_badge_coverage (s : string) (clock : nat -> Z) (n : nat) :
  let badges := (expiryBadges parseDate getMonth setMonth s clock n).1 in
  (parseDate s = None ->
     expiringSoonBadge badges = false /\ expiredBadge badges = false)
  /\ (forall e limit,
        parseDate s = Some e ->
        setMonth (clock (S n)) (getMonth (clock n) + 3) = Some limit ->
        e <= limit ->
        clock n <= clock (S (S n)) ->
        expiringSoonBadge badges = true \/ expiredBadge badges = true).
Proof.
  cbv zeta. rewrite expiryBadges_readings. cbn [fst expiringSoonBadge expiredBadge].
  split.
  - intros ->. split; reflexivity.
  - intros e limit -> -> Hle Hclock. simpl.
    destruct (Z.leb_spec e (clock (S (S n)))) as [H | H]; [by right | left].
    apply andb_true_iff. split; [apply Z.leb_le; exact Hle | apply Z.ltb_lt; lia].
Qed.

End BadgeCoverage.

Section BadgeCoverageExamples.
Import StoreDetails UtcDate.
Open Scope Z_scope.

Lemma expiry_badge_coverage_witness :
  expiringSoonBadge
    (expiryBadges parseDate getMonth setMonth "2026-12-31" (frozen 1793577600000) 0%nat).1
  = true
  \/ expiredBadge
       (expiryBadges parseDate getMonth setMonth "2026-12-31" (frozen 1793577600000) 0%nat).1
     = true.
Proof.
  apply (proj2 (expiry_badge_coverage parseDate getMonth setMonth
                  "2026-12-31" (frozen 1793577600000) 0%nat)
           1798675200000 1801526400000);
    [vm_compute; reflexivity | vm_compute; reflexivity | lia | unfold frozen; lia].
Defined.

End BadgeCoverageExamples.

(** ** The store list of the home page *)

Module IndexPageFacts.
Import Js IndexPage SearchCoreFacts IgnoringCase IgnoringCaseFacts.

Lemma is_space_to_lower (c : ascii) :
  is_space (SearchCore.to_lower c) = is_space c.
Proof.
  destruct c as [[] [] [] [] [] [] [] []]; reflexivity.
Qed.

Lemma trim_start_lower (s : string) :
  trim_start (SearchCore.lower s) = SearchCore.lower (trim_start s).
Proof.
  induction s as [ | c s IH]; [reflexivity | ].
  simpl. rewrite is_space_to_lower. destruct (is_space c); [exact IH | reflexivity].
Qed.

Lemma lower_of_list (l : list ascii) :
  SearchCore.lower (string_of_list_ascii l)
  = string_of_list_ascii (map SearchCore.to_lower l).
Proof. induction l as [ | c l IH]; [reflexivity | ]. simpl. by rewrite IH. Qed.

Lemma list_of_lower (s : string) :
  list_ascii_of_string (SearchCore.lower s)
  = map SearchCore.to_lower (list_ascii_of_string s).
Proof. induction s as [ | c s IH]; [reflexivity | ]. simpl. by rewrite IH. Qed.

Lemma string_rev_lower (s : string) :
  string_rev (SearchCore.lower s) = SearchCore.lower (string_rev s).
Proof.
  unfold string_rev. rewrite list_of_lower, lower_of_list, map_rev. reflexivity.
Qed.

Lemma trim_lower (s : string) : trim (SearchCore.lower s) = SearchCore.lower (trim s).
Proof.
  unfold trim. by rewrite trim_start_lower, string_rev_lower, trim_start_lower, string_rev_lower.
Qed.

Lemma lower_empty (s : string) : SearchCore.lower s = "" <-> s = "".
Proof. destruct s; simpl; split; congruence. Qed.

(** Blankness of a query depends on its lower-case form only. *)
Lemma blank_lower (q : string) :
  String.eqb (trim q) "" = String.eqb (trim (toLowerCase q)) "".
Proof.
  unfold toLowerCase. rewrite trim_lower.
  destruct (String.eqb_spec (trim q) "") as [-> | H]; [reflexivity | ].
  destruct (String.eqb_spec (SearchCore.lower (trim q)) "") as [E | _]; [ | reflexivity].
  apply (proj1 (lower_empty _)) in E. congruence.
Qed.

(** X13. For an ASCII query over stores whose names and addresses are
    ASCII texts: with a blank query (empty or white space only) every store
    is listed; otherwise a store is listed iff some part of its name or of
    its address is the query as typed (not trimmed), letter case set
    aside.  The two hypotheses keep the statement to the texts on which
    [trim] and [toLowerCase] above are those of the engine. *)
Theorem filteredStores_membership (searchQuery : string) (stores : list Store) :
  is_ascii_text searchQuery = true ->
  (forall store, In store stores ->
     is_ascii_text (name store) = true /\ is_ascii_text (address store) = true) ->
  (trim searchQuery = "" -> filteredStores searchQuery stores = stores)
  /\ (trim searchQuery <> "" ->
      forall store,
        In store (filteredStores searchQuery stores) <->
          In store stores
          /\ (occurs_ignoring_case (name store) searchQuery
              \/ occurs_ignoring_case (address store) searchQuery)).
Proof.
  intros _ _. unfold filteredStores. split.
  - intros ->. reflexivity.
  - intros Hne store.
    destruct (String.eqb_spec (trim searchQuery) "") as [E | _]; [contradiction | ].
    rewrite filter_In, <- !contains_iff_occurs.
    unfold shown, includes, toLowerCase, SearchCore.contains_ignoring_case.
    rewrite orb_true_iff, !includes_spec. reflexivity.
Qed.

(** X14. The listed stores are a sub-sequence of the stores, in their
    order; filtering the listed stores again with the same query changes
    nothing; and two queries that differ only in letter case list the same
    stores. *)
Theorem filteredStores_stable (searchQuery : string) (stores : list Store) :
  sublist (filteredStores searchQuery stores) stores
  /\ filteredStores searchQuery (filteredStores searchQuery stores)
     = filteredStores searchQuery stores
  /\ (forall q', toLowerCase q' = toLowerCase searchQuery ->
        filteredStores q' stores = filteredStores searchQuery stores).
Proof.
  split; [ | split].
  - unfold filteredStores. destruct (String.eqb _ _); [reflexivity | ].
    induction stores as [ | s l IH]; simpl; [constructor | ].
    destruct (shown searchQuery s); by constructor.
  - unfold filteredStores. destruct (String.eqb _ _); [reflexivity | ].
    induction stores as [ | s l IH]; simpl; [reflexivity | ].
    destruct (shown searchQuery s) eqn:E; simpl; [ | exact IH].
    rewrite E. f_equal. exact IH.
  - intros q' Hq. unfold filteredStores.
    rewrite (blank_lower q'), (blank_lower searchQuery), Hq.
    destruct (String.eqb _ _); [reflexivity | ].
    apply filter_ext. intros s. unfold shown. by rewrite Hq.
Qed.

End IndexPageFacts.

Section IndexPageExamples.
Import Js IndexPage IndexPageFacts.

Lemma filteredStores_membership_witness :
  filteredStores "   " [ListExamples.listed_pharmacy] = [ListExamples.listed_pharmacy]
  /\ In ListExamples.listed_pharmacy (filteredStores "MAIN" [ListExamples.listed_pharmacy]).
Proof.
  assert (Hascii : forall store, In store [ListExamples.listed_pharmacy] ->
            IgnoringCase.is_ascii_text (name store) = true
            /\ IgnoringCase.is_ascii_text (address store) = true).
  { intros store [<- | []]. split; reflexivity. }
  split.
  - apply (proj1 (filteredStores_membership "   " [ListExamples.listed_pharmacy]
                    eq_refl Hascii)).
    reflexivity.
  - apply (proj2 (filteredStores_membership "MAIN" [ListExamples.listed_pharmacy]
                    eq_refl Hascii)); [discriminate | ].
    split; [by left | right].
    exists "1 ", "Main", " St". split; [reflexivity | ].
    simpl. repeat split;
      first [ left; reflexivity | right; left; vm_compute; lia | right; right; vm_compute; lia ].
Defined.

Lemma filteredStores_stable_witness :
  filteredStores "Central" [ListExamples.listed_pharmacy]
  = filteredStores "CENTRAL" [ListExamples.listed_pharmacy].
Proof.
  apply (proj2 (proj2 (filteredStores_stable "CENTRAL" [ListExamples.listed_pharmacy]))).
  reflexivity.
Defined.

End IndexPageExamples.

(** ** The form of a new store *)

Module AddStoreFacts.
Import Js Zod Rules AddStore JsFacts ZodFacts SearchMedicineFacts ValidationFacts.

Lemma storeSchema_NoDup : NoDup (storeSchema.*1).
Proof. apply (bool_decide_unpack _). vm_compute. reflexivity. Qed.

Lemma store_validateForm_errors (st : State) :
  validation_errors st
  = SearchMedicine.collect_errors (object_issues storeSchema (formData st)).
Proof.
  unfold validation_errors, validateForm, parse.
  destruct (object_issues storeSchema (formData st)); reflexivity.
Qed.

Lemma store_validateForm_verdict (st : State) :
  (validateForm st).1 = true <-> object_issues storeSchema (formData st) = [].
Proof.
  unfold validateForm, parse.
  destruct (object_issues storeSchema (formData st)); simpl; split; congruence.
Qed.

Lemma store_validation_errors_lookup (st : State) (k : string) :
  validation_errors st !! k =
    match shape_lookup storeSchema k with
    | Some t => message <$> last (parse_type t [k] (get (formData st) k))
    | None => None
    end.
Proof.
  rewrite store_validateForm_errors. unfold SearchMedicine.collect_errors.
  rewrite record_object_issues by apply storeSchema_NoDup.
  destruct (shape_lookup storeSchema k); [ | apply lookup_empty].
  destruct (last _); [reflexivity | apply lookup_empty].
Qed.

(** Some issue was raised iff the error table has an entry. *)
Lemma issues_iff_entry (shape : ZodObject) (data : gmap string value) :
  object_issues shape data <> [] <->
  exists k, is_Some (SearchMedicine.collect_errors (object_issues shape data) !! k).
Proof.
  split.
  - intros Hne.
    destruct (object_issues shape data) as [ | i l] eqn:E; [contradiction | ].
    pose proof (object_issues_path shape data) as Hp. rewrite E in Hp.
    destruct (last (i :: l)) as [j | ] eqn:Hlast;
      [ | apply last_None in Hlast; discriminate].
    apply last_Some in Hlast as [l' Hl'].
    assert (Hj : exists k, path j = [k]).
    { rewrite Hl' in Hp. apply Forall_app in Hp as [_ Hp]. by inversion Hp. }
    destruct Hj as [k Hk]. exists k.
    rewrite Hl'. unfold SearchMedicine.collect_errors. rewrite foldl_app. simpl.
    unfold SearchMedicine.record_issue at 1. rewrite Hk, lookup_insert_eq. by eexists.
  - intros [k [m Hk]] E. rewrite E in Hk.
    unfold SearchMedicine.collect_errors in Hk. simpl in Hk.
    by rewrite lookup_empty in Hk.
Qed.

Lemma text_entry (st : State) (k msg : string) :
  shape_lookup storeSchema k = Some (min_length 1 msg string_) ->
  validation_errors st !! k = None <-> medicine_name_ok (get (formData st) k).
Proof.
  intros Hk. rewrite store_validation_errors_lookup, Hk.
  apply (entry_of_last (nonempty_field [k] msg (get (formData st) k))).
Qed.

Lemma store_latitude_entry (st : State) :
  validation_errors st !! "latitude" = None <-> latitude_ok (get (formData st) "latitude").
Proof.
  rewrite store_validation_errors_lookup.
  apply (entry_of_last
           (range_field ["latitude"] (-90) 90 "Latitude must be between -90 and 90"
              (get (formData st) "latitude"))).
Qed.

Lemma store_longitude_entry (st : State) :
  validation_errors st !! "longitude" = None <-> longitude_ok (get (formData st) "longitude").
Proof.
  rewrite store_validation_errors_lookup.
  apply (entry_of_last
           (range_field ["longitude"] (-180) 180 "Longitude must be between -180 and 180"
              (get (formData st) "longitude"))).
Qed.

(** X15. The store form reports every violation at once: its error table
    has an entry for a field exactly when that field breaks its rule (name,
    address, contact number and user id must be non-empty texts, the
    coordinates numbers in range), whatever the other fields hold; and the
    form is refused exactly when some field offends. *)
Theorem store_form_violations_reported (st : State) :
  (forall k, is_Some (validation_errors st !! k) <-> offending (formData st) k)
  /\ ((validateForm st).1 = false <-> exists k, offending (formData st) k).
Proof.
  assert (Hfields : forall k,
    is_Some (validation_errors st !! k) <-> offending (formData st) k).
  { intros k. rewrite <- not_eq_None_Some. unfold offending.
    destruct (decide (k = "name")) as [-> | N1].
    { rewrite (text_entry st "name" "Store name is required" eq_refl).
      split; [intros H; left; split; [by left | exact H] | ].
      intros [[_ H] | [[H _] | [H _]]]; [exact H | discriminate ..]. }
    destruct (decide (k = "address")) as [-> | N2].
    { rewrite (text_entry st "address" "Address is required" eq_refl).
      split; [intros H; left; split; [right; by left | exact H] | ].
      intros [[_ H] | [[H _] | [H _]]]; [exact H | discriminate ..]. }
    destruct (decide (k = "contactNumber")) as [-> | N3].
    { rewrite (text_entry st "contactNumber" "Contact number is required" eq_refl).
      split; [intros H; left; split; [right; right; by left | exact H] | ].
      intros [[_ H] | [[H _] | [H _]]]; [exact H | discriminate ..]. }
    destruct (decide (k = "userId")) as [-> | N4].
    { rewrite (text_entry st "userId" "User ID is required" eq_refl).
      split; [intros H; left; split; [by repeat right | exact H] | ].
      intros [[_ H] | [[H _] | [H _]]]; [exact H | discriminate ..]. }
    destruct (decide (k = "latitude")) as [-> | N5].
    { rewrite store_latitude_entry.
      split; [intros H; right; left; by split | ].
      intros [[[H | [H | [H | H]]] _] | [[_ H] | [H _]]];
        [discriminate .. | exact H | discriminate]. }
    destruct (decide (k = "longitude")) as [-> | N6].
    { rewrite store_longitude_entry.
      split; [intros H; right; right; by split | ].
      intros [[[H | [H | [H | H]]] _] | [[H _] | [_ H]]];
        [discriminate .. | exact H]. }
    rewrite store_validation_errors_lookup. simpl.
    repeat (destruct (decide _); [congruence | ]).
    split; [congruence | ].
    intros [[[H | [H | [H | H]]] _] | [[H _] | [H _]]]; congruence. }
  split; [exact Hfields | ].
  transitivity (exists k, is_Some (validation_errors st !! k)).
  - rewrite <- not_true_iff_false, store_validateForm_verdict, store_validateForm_errors.
    apply issues_iff_entry.
  - split; intros [k Hk]; exists k; by apply Hfields.
Qed.

(** X16. Submitting the store form: when validation fails nothing leaves
    the page (no request, no toast, no navigation) and the form data stay;
    when it passes, exactly one POST carries the form data, [submitting] is
    off at the end, and the page navigates home exactly when the request
    was fulfilled; a rejected request shows one destructive toast and stays
    on the form. *)
Theorem handleSubmit_outcome (backend : Request -> Response) (st : State) :
  let o := handleSubmit backend st in
  let req := mkRequest (API_URL +:+ "/stores") (formData st) in
  formData (state o) = formData st
  /\ ((validateForm st).1 = false ->
        requests o = [] /\ toasts o = [] /\ navigations o = []
        /\ submitting (state o) = submitting st
        /\ errors (state o) = validation_errors st)
  /\ ((validateForm st).1 = true ->
        requests o = [req]
        /\ submitting (state o) = false
        /\ errors (state o) = ∅
        /\ (navigations o = ["/"] <-> backend req = Fulfilled)
        /\ (navigations o = [] <-> exists detail, backend req = Rejected detail)
        /\ exists t, toasts o = [t]
                     /\ (SearchMedicine.destructive t = true
                         <-> exists detail, backend req = Rejected detail)).
Proof.
  cbv zeta. unfold handleSubmit, validation_errors.
  destruct (validateForm st) as [ok st1] eqn:E.
  assert (Hst1 : st1 = setErrors (errors st1) st /\ (ok = true -> errors st1 = ∅)).
  { unfold validateForm in E.
    destruct (parse storeSchema (formData st)); injection E as <- <-; split;
      (reflexivity || discriminate || auto). }
  destruct Hst1 as [Hst1 Hempty].
  destruct ok; simpl.
  - split; [ | split; [discriminate | intros _]].
    + destruct (backend _); simpl; rewrite Hst1; reflexivity.
    + destruct (backend _) as [ | detail] eqn:B; simpl.
      * repeat split; try reflexivity; try (by apply Hempty); try discriminate.
        -- intros [d [=]].
        -- eexists. split; [reflexivity | simpl]. split; [discriminate | intros [d [=]]].
      * repeat split; try reflexivity; try (by apply Hempty); try discriminate.
        -- by exists detail.
        -- eexists. split; [reflexivity | simpl]. split; [by exists detail | reflexivity].
  - split; [rewrite Hst1; reflexivity | split; [intros _ | discriminate]].
    repeat split; rewrite Hst1; reflexivity.
Qed.

Section StoreFormEngine.
Variable parseFloat : string -> number.

Lemma handleChange_formData (name value_ : string) (st : State) :
  formData (handleChange parseFloat name value_ st) =
    <[name := if bool_decide (name = "latitude") || bool_decide (name = "longitude")
              then JsNumber (or_zero (parseFloat value_))
              else JsString value_]> (formData st).
Proof.
  unfold handleChange. destruct (errors st !! name) as [msg | ]; [ | reflexivity].
  destruct (string_truthy msg); reflexivity.
Qed.

(** X17. From the store form as it opens, typing a non-empty name, address
    and contact number is enough: the form validates, and the POST carries
    these three texts with latitude 0, longitude 0 and the default user id
    "user123". *)
Theorem three_texts_make_the_store_form_valid
    (backend : Request -> Response) (n a c : string) :
  n <> "" -> a <> "" -> c <> "" ->
  let st := handleChange parseFloat "contactNumber" c
              (handleChange parseFloat "address" a
                 (handleChange parseFloat "name" n initialState)) in
  (validateForm st).1 = true
  /\ requests (handleSubmit backend st)
     = [mkRequest (API_URL +:+ "/stores")
          (<["contactNumber" := JsString c]>
             (<["address" := JsString a]> (<["name" := JsString n]> initialFormData)))].
Proof.
  intros Hn Ha Hc. cbv zeta.
  set (st := handleChange parseFloat "contactNumber" c _).
  assert (Hdata : formData st
                  = <["contactNumber" := JsString c]>
                      (<["address" := JsString a]>
                         (<["name" := JsString n]> initialFormData))).
  { unfold st. rewrite !handleChange_formData. reflexivity. }
  assert (Hok : (validateForm st).1 = true).
  { apply store_validateForm_verdict. rewrite Hdata.
    destruct n as [ | n1 n]; [congruence | ].
    destruct a as [ | a1 a]; [congruence | ].
    destruct c as [ | c1 c]; [congruence | ].
    reflexivity. }
  split; [exact Hok | ].
  unfold handleSubmit. destruct (validateForm st) as [ok st1]. simpl in Hok. subst ok.
  simpl. rewrite Hdata. destruct (backend _); reflexivity.
Qed.

End StoreFormEngine.

End AddStoreFacts.

Section AddStoreExamples.
Import Js Zod AddStore AddStoreFacts.

Lemma handleSubmit_outcome_witness :
  requests (handleSubmit (fun _ => Fulfilled) initialState) = []
  /\ navigations (handleSubmit (fun _ => Fulfilled) initialState) = [].
Proof.
  destruct (handleSubmit_outcome (fun _ => Fulfilled) initialState) as (_ & H & _).
  destruct H as (H1 & _ & H3 & _); [vm_compute; reflexivity | ].
  split; assumption.
Defined.

Lemma three_texts_make_the_store_form_valid_witness :
  (validateForm
     (handleChange FormExamples.sample_parseFloat "contactNumber" "555-0001"
        (handleChange FormExamples.sample_parseFloat "address" "1 Main St"
           (handleChange FormExamples.sample_parseFloat "name" "Central Pharmacy"
              initialState)))).1 = true.
Proof.
  apply (three_texts_make_the_store_form_valid FormExamples.sample_parseFloat
           (fun _ => Fulfilled) "Central Pharmacy" "1 Main St" "555-0001");
    discriminate.
Defined.

Lemma store_form_violations_reported_witness :
  is_Some (validation_errors initialState !! "name")
  /\ validation_errors initialState !! "userId" = None.
Proof.
  split.
  - apply (proj1 (store_form_violations_reported initialState) "name").
    left. split; [by left | ]. intros (s & Hs & Hne). vm_compute in Hs.
    injection Hs as <-. by apply Hne.
  - destruct (validation_errors initialState !! "userId") eqn:E; [ | reflexivity].
    exfalso.
    assert (H : is_Some (validation_errors initialState !! "userId")) by (rewrite E; eauto).
    apply (proj1 (store_form_violations_reported initialState) "userId") in H.
    destruct H as [[_ H] | [[H _] | [H _]]]; [ | discriminate ..].
    apply H. exists "user123". split; [reflexivity | discriminate].
Defined.

End AddStoreExamples.
